(** * collabup-be: authorization, signed URLs, mail and documents in [server.js]

    The development embeds [isPathAllowedForRole] (server.js, lines 116-157)
    and the two routes that call it, [POST /signed-url] and
    [POST /signed-url-read] (lines 87-113 and 159-240), and proves the
    properties the specification states about them.  It then embeds the
    CORS origin check (lines 36-78), the two mail routes (lines 242-306),
    the three project routes (lines 311-407) and the status route
    (lines 461-511), and proves what the code shows about them.

    JavaScript strings are modelled as [string]: [startsWith] and [includes]
    compare code units one by one, so the alphabet plays no role.  A call
    that can raise an exception returns a [completion]. *)

From Stdlib Require Import String Ascii List Bool ZArith.
From stdpp Require Import gmap strings list fin_maps pretty.

Local Open Scope string_scope.
Local Open Scope list_scope.

(** ** The fragment of JavaScript the source relies on *)

Module JS.

Inductive error : Type :=
| TypeError.

(** Result of evaluating a call: a value, or an exception in flight. *)
Inductive completion (A : Type) : Type :=
| Normal (v : A)
| Throw (e : error).

Arguments Normal {A} v.
Arguments Throw {A} e.

(** [s.startsWith(p)]. *)
Fixpoint startsWith (s p : string) {struct p} : bool :=
  match p with
  | EmptyString => true
  | String c p' =>
      match s with
      | EmptyString => false
      | String d s' => if Ascii.eqb d c then startsWith s' p' else false
      end
  end.

(** [s.includes(u)]: [u] occurs in [s] at some position. *)
Fixpoint includes (s u : string) : bool :=
  startsWith s u ||
  match s with
  | EmptyString => false
  | String _ s' => includes s' u
  end.

(** What reading [o[k]] yields when [o] is an object literal whose own
    properties are arrays of strings.  A key that is not an own property
    is looked up in [Object.prototype]. *)
Inductive property : Type :=
| Own (l : list string)
| Inherited
| Undefined.

(** The property names of [Object.prototype].  Each one reads as a
    function, except [__proto__], which reads as [Object.prototype]
    itself: all are truthy and none is iterable. *)
Definition Object_prototype_names : list string :=
  [ "constructor"; "__defineGetter__"; "__defineSetter__"; "hasOwnProperty";
    "__lookupGetter__"; "__lookupSetter__"; "isPrototypeOf";
    "propertyIsEnumerable"; "toString"; "valueOf"; "__proto__";
    "toLocaleString" ].

Definition inherited (k : string) : bool :=
  existsb (String.eqb k) Object_prototype_names.

(** [o[k]] *)
Definition get (o : gmap string (list string)) (k : string) : property :=
  match o !! k with
  | Some l => Own l
  | None => if inherited k then Inherited else Undefined
  end.

(** [...(v || [])] inside an array literal: [undefined] is falsy and is
    replaced by the empty array; an array is spread; any other object is
    truthy and not iterable, so the spread raises a [TypeError]. *)
Definition spread_or_empty (v : property) : completion (list string) :=
  match v with
  | Own l => Normal l
  | Undefined => Normal []
  | Inherited => Throw TypeError
  end.

End JS.

Import JS.

(** ** [isPathAllowedForRole] *)

(** The object literal [baseByRole] (lines 117-138). *)
Definition baseByRole (uid : string) : gmap string (list string) :=
  <[ "student" := [ "users/students/" +:+ uid +:+ "/";
                    "projects/student-projects/" ] ]>
  (<[ "faculty" := [ "users/faculty/" +:+ uid +:+ "/";
                     "projects/research-projects/" ] ]>
  (<[ "mentor" := [ "users/mentors/" +:+ uid +:+ "/" ] ]>
  (<[ "startup" := [ "users/startups/" +:+ uid +:+ "/";
                     "projects/startup-projects/" ] ]>
  (<[ "admin" := [ "users/admins/" +:+ uid +:+ "/";
                   "projects/";
                   "users/" ] ]> ∅)))).

(** The array [legacy] (lines 141-147). *)
Definition legacy (uid : string) : list string :=
  [ "profile-pictures/" +:+ uid +:+ "/";
    "id-documents/" +:+ uid +:+ "/";
    "enrollments/" +:+ uid +:+ "/";
    "project-files/" ].

(** [[ ...(baseByRole[role] || []), ...legacy ]] (line 149). *)
Definition allowedPrefixes (role uid : string) : completion (list string) :=
  match spread_or_empty (get (baseByRole uid) role) with
  | Normal base => Normal (base ++ legacy uid)
  | Throw e => Throw e
  end.

Definition isPathAllowedForRole (role uid objectPath : string)
  : completion bool :=
  match allowedPrefixes role uid with
  | Throw e => Throw e
  | Normal prefixes =>
      let hasAllowedPrefix :=
        existsb (fun p => startsWith objectPath p) prefixes in
      if negb hasAllowedPrefix then Normal false
      else
        let includesUid := includes objectPath uid in
        if negb (String.eqb role "admin") && negb includesUid
        then Normal false
        else Normal true
  end.

(** ** The routes that issue signed URLs *)

Module Server.

(** Values that reach the routes from outside: fields of a JSON request
    body and of a Firestore document.  [JObj repr] is any object or
    array; [repr] is what its [toString()] yields.  Numbers are
    restricted to integers: only their truthiness and their decimal
    form are used. *)
Inductive jsval : Type :=
| JUndefined
| JNull
| JBool (b : bool)
| JNum (n : Z)
| JStr (s : string)
| JObj (repr : string).

Definition truthy (v : jsval) : bool :=
  match v with
  | JUndefined | JNull => false
  | JBool b => b
  | JNum n => negb (n =? 0)%Z
  | JStr s => negb (String.eqb s "")
  | JObj _ => true
  end.

(** [v.toString()] for a truthy [v]. *)
Definition toString (v : jsval) : string :=
  match v with
  | JUndefined => "undefined"
  | JNull => "null"
  | JBool b => if b then "true" else "false"
  | JNum n => pretty n
  | JStr s => s
  | JObj repr => repr
  end.

(** [s.substring(n)] *)
Fixpoint substring_from (n : nat) (s : string) : string :=
  match n, s with
  | O, _ => s
  | S _, EmptyString => EmptyString
  | S n', String _ s' => substring_from n' s'
  end.

Record DecodedIdToken : Type := { user_uid : string; user_email : string }.

Record DocumentSnapshot : Type := { snap_exists : bool; snap_role : jsval }.

Inductive action : Type := Write | Read.

(** The collaborators of the process.  An operation that rejects (or
    throws) answers [None].  [getSignedUrl] stands for
    [storage.bucket(b).file(path).getSignedUrl(...)] with the action, the
    content type and the five-minute expiry the handler passes. *)
Record world : Type := {
  bucketName : option string;
  verifyIdToken : string -> option DecodedIdToken;
  firestore_doc_get : string -> option DocumentSnapshot;
  getSignedUrl : action -> string -> jsval -> jsval -> option string
}.

Record body : Type := { objectPath : jsval; contentType : jsval }.

Record request : Type := {
  authorization : option string;
  req_body : option body
}.

Inductive json : Type :=
| JsonError (message : string)
| JsonUrl (url : string).

Record response : Type := { status : nat; payload : json }.

(** The calls a request makes, in the order it makes them. *)
Inductive event : Type :=
| CallVerifyIdToken (token : string)
| CallFirestoreGet (doc : string)
| CallIsPathAllowedForRole (role uid : string) (objectPath : jsval)
    (result : completion bool)
| CallGetSignedUrl (a : action) (bucket : string)
    (objectPath contentType : jsval)
| CallConsoleError (label : string).

(** A computation returns a value and the calls it made. *)
Definition M (A : Type) : Type := (A * list event)%type.

#[export] Instance M_ret : MRet M := fun A a => (a, []).
#[export] Instance M_bind : MBind M :=
  fun A B f m => ((f m.1).1, m.2 ++ (f m.1).2).

Definition call (e : event) : M unit := (tt, [e]).

Definition json_error (code : nat) (message : string) : response :=
  {| status := code; payload := JsonError message |}.

(** [verifyAuth] (lines 87-101): the 401 it answers, or [req.user]. *)
Definition verifyAuth (w : world) (req : request)
  : M (response + DecodedIdToken) :=
  let authHeader := default "" (authorization req) in
  let token :=
    if startsWith authHeader "Bearer "
    then Some (substring_from 7 authHeader) else None in
  match token with
  | None | Some "" =>
      mret (inl (json_error 401 "Missing Authorization Bearer token"))
  | Some token =>
      call (CallVerifyIdToken token);;
      match verifyIdToken w token with
      | Some decoded => mret (inr decoded)
      | None =>
          call (CallConsoleError "Auth verify error:");;
          mret (inl (json_error 401 "Invalid or expired token"))
      end
  end.

(** [getUserRole] (lines 104-113). *)
Definition getUserRole (w : world) (uid : string) : M string :=
  call (CallFirestoreGet ("users/" +:+ uid));;
  match firestore_doc_get w ("users/" +:+ uid) with
  | Some snap =>
      let role := if snap_exists snap then snap_role snap else JNull in
      mret (toString (if truthy role then role else JStr "student"))
  | None =>
      call (CallConsoleError "Error fetching user role:");;
      mret "student"
  end.

(** The call [isPathAllowedForRole(role, uid, objectPath)] on a truthy
    body field.  Only a string has [startsWith]; on any other value the
    callback of [some] raises a [TypeError] at the first prefix (the
    list is never empty, [legacy] has four entries). *)
Definition isPathAllowedForRole_on (role uid : string) (objectPath : jsval)
  : completion bool :=
  match objectPath with
  | JStr p => isPathAllowedForRole role uid p
  | _ => Throw TypeError
  end.

(** The same call, recorded among the calls of the request. *)
Definition call_isPathAllowedForRole (role uid : string) (objectPath : jsval)
  : M (completion bool) :=
  let result := isPathAllowedForRole_on role uid objectPath in
  call (CallIsPathAllowedForRole role uid objectPath result);;
  mret result.

(** The two routes. *)
Inductive endpoint : Type := SignedUrl | SignedUrlRead.

(** Handler of [POST /signed-url] (lines 162-205). *)
Definition signed_url (w : world) (req : request) (user : DecodedIdToken)
  : M response :=
  match bucketName w with
  | None | Some "" => mret (json_error 500 "BUCKET_NAME env var not set")
  | Some bucket =>
      let b := default {| objectPath := JUndefined;
                          contentType := JUndefined |} (req_body req) in
      if negb (truthy (objectPath b)) || negb (truthy (contentType b))
      then mret (json_error 400 "objectPath and contentType are required")
      else
        let uid := user_uid user in
        if String.eqb uid "" then mret (json_error 401 "Unauthenticated")
        else
          role ← getUserRole w uid;
          allowed ← call_isPathAllowedForRole role uid (objectPath b);
          match allowed with
          | Throw _ =>
              call (CallConsoleError "Signed URL error:");;
              mret (json_error 500 "Failed to create signed URL")
          | Normal false =>
              mret (json_error 403 "Upload path not allowed for your role")
          | Normal true =>
              call (CallGetSignedUrl Write bucket (objectPath b)
                      (contentType b));;
              match getSignedUrl w Write bucket (objectPath b)
                      (contentType b) with
              | Some url => mret {| status := 200; payload := JsonUrl url |}
              | None =>
                  call (CallConsoleError "Signed URL error:");;
                  mret (json_error 500 "Failed to create signed URL")
              end
          end
  end.

(** Handler of [POST /signed-url-read] (lines 209-240). *)
Definition signed_url_read (w : world) (req : request)
  (user : DecodedIdToken) : M response :=
  match bucketName w with
  | None | Some "" => mret (json_error 500 "BUCKET_NAME env var not set")
  | Some bucket =>
      let b := default {| objectPath := JUndefined;
                          contentType := JUndefined |} (req_body req) in
      if negb (truthy (objectPath b))
      then mret (json_error 400 "objectPath is required")
      else
        let uid := user_uid user in
        if String.eqb uid "" then mret (json_error 401 "Unauthenticated")
        else
          role ← getUserRole w uid;
          allowed ← call_isPathAllowedForRole role uid (objectPath b);
          match allowed with
          | Throw _ =>
              call (CallConsoleError "Signed URL read error:");;
              mret (json_error 500 "Failed to create signed read URL")
          | Normal false =>
              mret (json_error 403 "Read path not allowed for your role")
          | Normal true =>
              call (CallGetSignedUrl Read bucket (objectPath b) JUndefined);;
              match getSignedUrl w Read bucket (objectPath b) JUndefined with
              | Some url => mret {| status := 200; payload := JsonUrl url |}
              | None =>
                  call (CallConsoleError "Signed URL read error:");;
                  mret (json_error 500 "Failed to create signed read URL")
              end
          end
  end.

Definition handler (ep : endpoint)
  : world -> request -> DecodedIdToken -> M response :=
  match ep with
  | SignedUrl => signed_url
  | SignedUrlRead => signed_url_read
  end.

(** [app.post(path, verifyAuth, handler)]: the handler runs when the
    middleware calls [next()]. *)
Definition route (handler : world -> request -> DecodedIdToken -> M response)
  (w : world) (req : request) : M response :=
  auth ← verifyAuth w req;
  match auth with
  | inl resp => mret resp
  | inr user => handler w req user
  end.

Definition post_signed_url : world -> request -> M response :=
  route (handler SignedUrl).

Definition post_signed_url_read : world -> request -> M response :=
  route (handler SignedUrlRead).

(** The routing table. *)
Definition serve (ep : endpoint) : world -> request -> M response :=
  match ep with
  | SignedUrl => post_signed_url
  | SignedUrlRead => post_signed_url_read
  end.

(** What the signer answers to the call each handler makes. *)
Definition signer_answer (w : world) (ep : endpoint) (bucket : string)
  (b : body) : option string :=
  match ep with
  | SignedUrl => getSignedUrl w Write bucket (objectPath b) (contentType b)
  | SignedUrlRead => getSignedUrl w Read bucket (objectPath b) JUndefined
  end.

(** The signing call each handler makes, and the label it logs under. *)
Definition signer_call (ep : endpoint) (bucket : string) (b : body) : event :=
  match ep with
  | SignedUrl => CallGetSignedUrl Write bucket (objectPath b) (contentType b)
  | SignedUrlRead => CallGetSignedUrl Read bucket (objectPath b) JUndefined
  end.

Definition error_label (ep : endpoint) : string :=
  match ep with
  | SignedUrl => "Signed URL error:"
  | SignedUrlRead => "Signed URL read error:"
  end.

(** What each route answers on denial (lines 181 and 225). *)
Definition denial (ep : endpoint) : response :=
  match ep with
  | SignedUrl => json_error 403 "Upload path not allowed for your role"
  | SignedUrlRead => json_error 403 "Read path not allowed for your role"
  end.

Definition is_signing (e : event) : bool :=
  match e with
  | CallGetSignedUrl _ _ _ _ => true
  | _ => false
  end.

Definition is_check (e : event) : bool :=
  match e with
  | CallIsPathAllowedForRole _ _ _ _ => true
  | _ => false
  end.

(** Neither a signing nor an evaluation of the check. *)
Definition quiet (e : event) : Prop :=
  is_signing e = false ∧ is_check e = false.

(** A world and two requests to run the routes on. *)
Definition sample_world : world :=
  {| bucketName := Some "collabup-uploads";
     verifyIdToken := λ _,
       Some {| user_uid := "u1"; user_email := "u1@example.org" |};
     firestore_doc_get := λ _,
       Some {| snap_exists := true; snap_role := JStr "mentor" |};
     getSignedUrl := λ _ _ _ _, Some "https://storage.example/signed" |}.


Definition sample_request : request :=
  {| authorization := Some "Bearer token-of-u1";
     req_body :=
       Some {| objectPath := JStr "users/mentors/u2/file.pdf";
               contentType := JStr "application/pdf" |} |}.

(** A request of [u1] for a path of their own. *)
Definition own_request : request :=
  {| authorization := Some "Bearer token-of-u1";
     req_body :=
       Some {| objectPath := JStr "users/mentors/u1/file.pdf";
               contentType := JStr "application/pdf" |} |}.

(** A request whose [objectPath] is a number. *)
Definition numeric_path_request : request :=
  {| authorization := Some "Bearer token-of-u1";
     req_body :=
       Some {| objectPath := JNum 7;
               contentType := JStr "application/pdf" |} |}.

(** A request without an [Authorization] header. *)
Definition anonymous_request : request :=
  {| authorization := None;
     req_body :=
       Some {| objectPath := JStr "users/mentors/u1/file.pdf";
               contentType := JStr "application/pdf" |} |}.

(** The calls [verifyAuth] can make. *)
Definition is_auth_call (e : event) : bool :=
  match e with
  | CallVerifyIdToken _ | CallConsoleError _ => true
  | _ => false
  end.

End Server.

(** ** The project routes and the status route *)

Module Api.

Import Server.

(** A field written to the document store: a plain value, or the
    sentinel [FieldValue.serverTimestamp()]. *)
Inductive value : Type :=
| Val (v : jsval)
| ServerTimestamp.

(** [o.k] for a key [k] that is no name of [Object.prototype]: the own
    property, or [undefined]. *)
Definition field (o : gmap string jsval) (k : string) : jsval :=
  default JUndefined (o !! k).

(** [a || b] *)
Definition js_or (a b : jsval) : jsval := if truthy a then a else b.

(** [v === s] for a string [s]. *)
Definition strict_eq (v : jsval) (s : string) : bool :=
  match v with
  | JStr t => String.eqb t s
  | _ => false
  end.

(** [process.env.X]: a string, or [undefined] when the variable is unset. *)
Definition env (x : option string) : jsval :=
  match x with
  | Some s => JStr s
  | None => JUndefined
  end.

Definition dquote : string := String (ascii_of_nat 34) "".
Definition newline : string := String (ascii_of_nat 10) "".

Record mail : Type := {
  mail_from : string;
  mail_to : jsval;
  mail_subject : jsval;
  mail_text : jsval;
  mail_html : jsval
}.

(** The collaborators of these routes.  [sendMail] stands for the Gmail
    transport built from [MAIL_USER] and [MAIL_PASS]; [doc_get] answers
    [None] when the read rejects or the reference cannot be built,
    [Some None] when the document does not exist, and the document's data
    otherwise; [collection_add] answers the id of the new document. *)
Record services : Type := {
  core : world;
  MAIL_USER : option string;
  MAIL_RECEIVER : option string;
  sendMail : mail -> bool;
  doc_get : jsval -> jsval -> option (option (gmap string jsval));
  collection_add : string -> gmap string value -> option string;
  doc_update : jsval -> jsval -> gmap string value -> bool
}.

Record api_request : Type := {
  req_authorization : option string;
  req_json : option (gmap string jsval)
}.

Inductive content : Type :=
| CError (message : string)
| CSuccess (message : string)
| CObject (fields : gmap string value).

Record reply : Type := { code : nat; content_of : content }.

(** What a request ends in: a reply, or an exception no handler catches. *)
Inductive outcome : Type :=
| Replied (r : reply)
| Uncaught (e : error).

Inductive effect : Type :=
| Core (e : event)
| DocGet (collection id : jsval)
| CollectionAdd (collection : string) (data : gmap string value)
| DocUpdate (collection id : jsval) (data : gmap string value)
| SendMail (m : mail)
| ConsoleLog (label : string)
| ConsoleError (label : string).

Definition IO (A : Type) : Type := (A * list effect)%type.

#[export] Instance IO_ret : MRet IO := fun A a => (a, []).
#[export] Instance IO_bind : MBind IO :=
  fun A B f m => ((f m.1).1, m.2 ++ (f m.1).2).

Definition perform (e : effect) : IO unit := (tt, [e]).

(** A computation of the signed-URL routes, run among these effects. *)
Definition lift {A : Type} (m : M A) : IO A := (m.1, Core <$> m.2).

Definition error_reply (status : nat) (message : string) : outcome :=
  Replied {| code := status; content_of := CError message |}.

(** The [catch] block of a handler: log under [label], answer 500. *)
Definition failed (label message : string) : IO outcome :=
  perform (ConsoleError label);;
  mret (error_reply 500 message).

(** [req.user.email]: the token's email claim, [undefined] when the
    token has none (recorded as the empty string). *)
Definition email_of (user : DecodedIdToken) : jsval :=
  if String.eqb (user_email user) "" then JUndefined
  else JStr (user_email user).

(** [{ ...req.body }]: spreading [undefined] adds nothing. *)
Definition spread_body (r : api_request) : gmap string value :=
  Val <$> default ∅ (req_json r).

(** [req.body.k]: raises a [TypeError] when there is no body. *)
Definition body_field (r : api_request) (k : string) : completion jsval :=
  match req_json r with
  | Some b => Normal (field b k)
  | None => Throw TypeError
  end.

(** Handler of [POST /api/projects/research] (lines 311-341). *)
Definition create_research_project (s : services) (r : api_request)
  (user : DecodedIdToken) : IO outcome :=
  let uid := user_uid user in
  perform (DocGet (JStr "users") (JStr uid));;
  match doc_get s (JStr "users") (JStr uid) with
  | None =>
      failed "Create research project error:"
        "Failed to create research project"
  | Some None => mret (error_reply 404 "User profile not found")
  | Some (Some userData) =>
      if negb (strict_eq (field userData "role") "faculty") &&
         negb (strict_eq (field userData "role") "admin")
      then mret (error_reply 403 "Only faculty can create research projects")
      else
        let projectData : gmap string value :=
          <[ "updatedAt" := ServerTimestamp ]>
          (<[ "createdAt" := ServerTimestamp ]>
          (<[ "facultyEmail" :=
                Val (js_or (field userData "email") (email_of user)) ]>
          (<[ "instituteName" :=
                Val (js_or (field userData "instituteName")
                       (js_or (field userData "institute")
                          (JStr "Unknown Institute"))) ]>
          (<[ "facultyName" :=
                Val (js_or (field userData "fullName")
                       (js_or (field userData "name")
                          (JStr "Unknown Faculty"))) ]>
          (<[ "facultyId" := Val (JStr uid) ]> (spread_body r)))))) in
        perform (CollectionAdd "researchProjects" projectData);;
        match collection_add s "researchProjects" projectData with
        | Some id =>
            mret (Replied
                    {| code := 201;
                       content_of :=
                         CObject
                           (projectData ∪ {[ "id" := Val (JStr id) ]}) |})
        | None =>
            failed "Create research project error:"
              "Failed to create research project"
        end
  end.

(** Handler of [POST /api/projects/startup] (lines 344-374). *)
Definition create_startup_project (s : services) (r : api_request)
  (user : DecodedIdToken) : IO outcome :=
  let uid := user_uid user in
  perform (DocGet (JStr "users") (JStr uid));;
  match doc_get s (JStr "users") (JStr uid) with
  | None =>
      failed "Create startup project error:" "Failed to create startup project"
  | Some None => mret (error_reply 404 "User profile not found")
  | Some (Some userData) =>
      if negb (strict_eq (field userData "role") "startup") &&
         negb (strict_eq (field userData "role") "admin")
      then mret (error_reply 403 "Only startups can create projects")
      else
        let startupName : completion jsval :=
          if truthy (field userData "startupName")
          then Normal (field userData "startupName")
          else if truthy (field userData "company")
          then Normal (field userData "company")
          else
            match body_field r "company" with
            | Normal company => Normal (js_or company (JStr "Your Startup"))
            | Throw e => Throw e
            end in
        match startupName with
        | Throw _ =>
            failed "Create startup project error:"
              "Failed to create startup project"
        | Normal startupName =>
            let projectData : gmap string value :=
              <[ "updatedAt" := ServerTimestamp ]>
              (<[ "createdAt" := ServerTimestamp ]>
              (<[ "startupEmail" :=
                    Val (js_or (field userData "email") (email_of user)) ]>
              (<[ "founderName" :=
                    Val (js_or (field userData "fullName")
                           (js_or (field userData "name")
                              (JStr "Unknown Founder"))) ]>
              (<[ "startupName" := Val startupName ]>
              (<[ "startupId" := Val (JStr uid) ]> (spread_body r)))))) in
            perform (CollectionAdd "startupProjects" projectData);;
            match collection_add s "startupProjects" projectData with
            | Some id =>
                mret (Replied
                        {| code := 201;
                           content_of :=
                             CObject
                               (projectData ∪
                                {[ "id" := Val (JStr id) ]}) |})
            | None =>
                failed "Create startup project error:"
                  "Failed to create startup project"
            end
        end
  end.

(** Handler of [POST /api/projects/student] (lines 377-407). *)
Definition create_student_project (s : services) (r : api_request)
  (user : DecodedIdToken) : IO outcome :=
  let uid := user_uid user in
  perform (DocGet (JStr "users") (JStr uid));;
  match doc_get s (JStr "users") (JStr uid) with
  | None =>
      failed "Create student project error:" "Failed to create student project"
  | Some None => mret (error_reply 404 "User profile not found")
  | Some (Some userData) =>
      if negb (strict_eq (field userData "role") "student") &&
         negb (strict_eq (field userData "role") "admin")
      then mret (error_reply 403 "Only students can create projects")
      else
        let ownerName : completion jsval :=
          if truthy (field userData "fullName")
          then Normal (field userData "fullName")
          else if truthy (field userData "name")
          then Normal (field userData "name")
          else
            match body_field r "ownerName" with
            | Normal ownerName =>
                Normal (js_or ownerName (JStr "Unknown Student"))
            | Throw e => Throw e
            end in
        let ownerEmail : completion jsval :=
          if truthy (field userData "email")
          then Normal (field userData "email")
          else if truthy (email_of user)
          then Normal (email_of user)
          else body_field r "ownerEmail" in
        match ownerName, ownerEmail with
        | Normal ownerName, Normal ownerEmail =>
            let projectData : gmap string value :=
              <[ "updatedAt" := ServerTimestamp ]>
              (<[ "createdAt" := ServerTimestamp ]>
              (<[ "instituteName" :=
                    Val (js_or (field userData "instituteName")
                           (js_or (field userData "institute")
                              (JStr "Unknown Institute"))) ]>
              (<[ "ownerEmail" := Val ownerEmail ]>
              (<[ "ownerName" := Val ownerName ]>
              (<[ "ownerId" := Val (JStr uid) ]> (spread_body r)))))) in
            perform (CollectionAdd "studentProjects" projectData);;
            match collection_add s "studentProjects" projectData with
            | Some id =>
                mret (Replied
                        {| code := 201;
                           content_of :=
                             CObject
                               (projectData ∪
                                {[ "id" := Val (JStr id) ]}) |})
            | None =>
                failed "Create student project error:"
                  "Failed to create student project"
            end
        | _, _ =>
            failed "Create student project error:"
              "Failed to create student project"
        end
  end.

(** Handler of [POST /api/requests/update-status] (lines 461-511). *)
Definition update_request_status (s : services) (r : api_request)
  (user : DecodedIdToken) : IO outcome :=
  match req_json r with
  | None => failed "Request update error:" "Failed to update request"
  | Some b =>
      let requestId := field b "requestId" in
      let collectionName := field b "collectionName" in
      let status := field b "status" in
      let studentEmail := field b "studentEmail" in
      let projectName := field b "projectName" in
      let uid := user_uid user in
      if negb (truthy requestId) || negb (truthy collectionName) ||
         negb (truthy status)
      then mret (error_reply 400
                   "requestId, collectionName, and status are required")
      else
        perform (DocGet collectionName requestId);;
        match doc_get s collectionName requestId with
        | None => failed "Request update error:" "Failed to update request"
        | Some None => mret (error_reply 404 "Request not found")
        | Some (Some data) =>
            if negb (strict_eq (field data "facultyId") uid) &&
               negb (strict_eq (field data "mentorId") uid) &&
               negb (strict_eq (field data "startupId") uid)
            then mret (error_reply 403 "Unauthorized to update this request")
            else
              let update : gmap string value :=
                <[ "updatedAt" := ServerTimestamp ]>
                (<[ "status" := Val status ]> ∅) in
              let done : IO outcome :=
                mret (Replied
                        {| code := 200;
                           content_of :=
                             CSuccess ("Request " +:+ toString status +:+
                                       " and notification sent.") |}) in
              perform (DocUpdate collectionName requestId update);;
              if doc_update s collectionName requestId update
              then
                if truthy studentEmail
                then
                  let mailOptions :=
                    {| mail_from :=
                         "CollabUp <" +:+ toString (env (MAIL_USER s)) +:+ ">";
                       mail_to := studentEmail;
                       mail_subject :=
                         JStr ("Update on your request for " +:+
                               toString (js_or projectName
                                           (JStr "a project")));
                       mail_text :=
                         JStr ("Your request has been " +:+ toString status
                               +:+ ". Log in to CollabUp to see more details.");
                       mail_html :=
                         JStr ("<h3>Status Update</h3><p>Your request for <b>"
                               +:+ toString (js_or projectName
                                               (JStr "the project"))
                               +:+ "</b> has been <b>" +:+ toString status
                               +:+ "</b>.</p><p>Log in to <a href=" +:+ dquote
                               +:+ "https://collabup.live" +:+ dquote
                               +:+ ">CollabUp</a> to see more details.</p>")
                    |} in
                  perform (SendMail mailOptions);;
                  if sendMail s mailOptions then done
                  else failed "Request update error:"
                         "Failed to update request"
                else done
              else failed "Request update error:" "Failed to update request"
        end
  end.

Definition reply_of (resp : response) : outcome :=
  Replied {| code := Server.status resp;
             content_of :=
               match payload resp with
               | JsonError message => CError message
               | JsonUrl url => CObject {[ "url" := Val (JStr url) ]}
               end |}.

(** [app.post(path, verifyAuth, handler)] for these routes. *)
Definition protected
  (handler : services -> api_request -> DecodedIdToken -> IO outcome)
  (s : services) (r : api_request) : IO outcome :=
  auth ← lift (verifyAuth (core s)
                 {| authorization := req_authorization r;
                    req_body := None |});
  match auth with
  | inl resp => mret (reply_of resp)
  | inr user => handler s r user
  end.

(** The three project routes. *)
Inductive project_kind : Type := Research | Startup | Student.

Definition create_project (k : project_kind)
  : services -> api_request -> DecodedIdToken -> IO outcome :=
  match k with
  | Research => create_research_project
  | Startup => create_startup_project
  | Student => create_student_project
  end.

Definition post_project (k : project_kind)
  : services -> api_request -> IO outcome :=
  protected (create_project k).

Definition post_update_status : services -> api_request -> IO outcome :=
  protected update_request_status.

(** What distinguishes the three project routes. *)
Definition project_collection (k : project_kind) : string :=
  match k with
  | Research => "researchProjects"
  | Startup => "startupProjects"
  | Student => "studentProjects"
  end.

Definition owner_field (k : project_kind) : string :=
  match k with
  | Research => "facultyId"
  | Startup => "startupId"
  | Student => "ownerId"
  end.

Definition project_role (k : project_kind) : string :=
  match k with
  | Research => "faculty"
  | Startup => "startup"
  | Student => "student"
  end.

(** The fields a project route sets itself, over those of the body. *)
Definition set_by_route (k : project_kind) : list string :=
  match k with
  | Research =>
      [ "facultyId"; "facultyName"; "instituteName"; "facultyEmail";
        "createdAt"; "updatedAt" ]
  | Startup =>
      [ "startupId"; "startupName"; "founderName"; "startupEmail";
        "createdAt"; "updatedAt" ]
  | Student =>
      [ "ownerId"; "ownerName"; "ownerEmail"; "instituteName";
        "createdAt"; "updatedAt" ]
  end.

Definition is_write (e : effect) : bool :=
  match e with
  | CollectionAdd _ _ | DocUpdate _ _ _ => true
  | _ => false
  end.

Definition is_mail (e : effect) : bool :=
  match e with
  | SendMail _ => true
  | _ => false
  end.

(** A faculty member [f1] with a profile, a request of theirs that tries
    to name another owner, and the services that answer them. *)
Definition sample_profile : gmap string jsval :=
  <[ "role" := JStr "faculty" ]>
  (<[ "fullName" := JStr "Ada Faculty" ]>
  (<[ "email" := JStr "ada@example.org" ]> ∅)).

Definition sample_project : gmap string jsval :=
  <[ "facultyId" := JStr "someone-else" ]>
  (<[ "id" := JStr "chosen-by-caller" ]>
  (<[ "title" := JStr "Sensors" ]> ∅)).

Definition sample_services : services :=
  {| core :=
       {| bucketName := Some "collabup-uploads";
          verifyIdToken := λ _,
            Some {| user_uid := "f1"; user_email := "f1@example.org" |};
          firestore_doc_get := λ _, None;
          getSignedUrl := λ _ _ _ _, None |};
     MAIL_USER := Some "noreply@example.org";
     MAIL_RECEIVER := Some "team@example.org";
     sendMail := λ _, false;
     doc_get := λ c id,
       match c, id with
       | JStr "users", JStr "f1" => Some (Some sample_profile)
       | JStr "collabRequests", JStr "r1" =>
           Some (Some (<[ "facultyId" := JStr "f1" ]> ∅))
       | _, _ => Some None
       end;
     collection_add := λ _ _, Some "new-doc";
     doc_update := λ _ _ _, true |}.

Definition sample_project_request : api_request :=
  {| req_authorization := Some "Bearer token-of-f1";
     req_json := Some sample_project |}.

Definition sample_student_request : api_request :=
  {| req_authorization := Some "Bearer token-of-f1";
     req_json := Some (<[ "title" := JStr "Robot" ]> ∅) |}.

Definition sample_status_request : api_request :=
  {| req_authorization := Some "Bearer token-of-f1";
     req_json :=
       Some (<[ "requestId" := JStr "r1" ]>
             (<[ "collectionName" := JStr "collabRequests" ]>
             (<[ "status" := JStr "accepted" ]>
             (<[ "studentEmail" := JStr "student@example.org" ]> ∅)))) |}.

Definition quiet_status_request : api_request :=
  {| req_authorization := Some "Bearer token-of-f1";
     req_json :=
       Some (<[ "requestId" := JStr "r1" ]>
             (<[ "collectionName" := JStr "collabRequests" ]>
             (<[ "status" := JStr "rejected" ]> ∅))) |}.

End Api.

(** ** The two mail routes (lines 242-306) *)

Module Mailer.

Import Server Api.

(** A value of a JSON request body, as far as these handlers look at
    it: they test it with [!v] and convert it with [`${v}`].  A number
    carries its decimal text.  An object or array carries the text its
    conversion to a string yields, or none when that conversion raises a
    [TypeError], as it does for an object that has a key [toString] of
    its own: no value of a JSON body is callable. *)
Inductive body_value : Type :=
| BNull
| BBool (b : bool)
| BNumber (nonzero : bool) (text : string)
| BString (s : string)
| BObject (text : option string).

(** Truthiness of a destructured field; [None] is [undefined]. *)
Definition present (v : option body_value) : bool :=
  match v with
  | None | Some BNull => false
  | Some (BBool b) => b
  | Some (BNumber nonzero _) => nonzero
  | Some (BString s) => negb (String.eqb s "")
  | Some (BObject _) => true
  end.

(** [`${v}`] *)
Definition template (v : option body_value) : completion string :=
  match v with
  | None => Normal "undefined"
  | Some BNull => Normal "null"
  | Some (BBool b) => Normal (if b then "true" else "false")
  | Some (BNumber _ text) => Normal text
  | Some (BString s) => Normal s
  | Some (BObject (Some text)) => Normal text
  | Some (BObject None) => Throw TypeError
  end.

(** [`${process.env.X}`]: the variable, or [undefined] when it is unset. *)
Definition env_text (x : option string) : string := default "undefined" x.

(** The options handed to [transporter.sendMail]; an absent key is
    [None]. *)
Record mail_options : Type := {
  msg_from : string;
  msg_to : option body_value;
  msg_subject : option body_value;
  msg_text : option body_value;
  msg_html : option body_value
}.

(** The environment and the Gmail transport: [transport] stands for
    [nodemailer.createTransport] followed by [sendMail], and answers
    whether the message was accepted. *)
Record mailer : Type := {
  env_MAIL_USER : option string;
  env_MAIL_RECEIVER : option string;
  transport : mail_options -> bool
}.

Inductive mail_effect : Type :=
| Debug (label : string)
| Transport (m : mail_options)
| MailError (label : string).

Definition W (A : Type) : Type := (A * list mail_effect)%type.

#[export] Instance W_ret : MRet W := fun A a => (a, []).
#[export] Instance W_bind : MBind W :=
  fun A B f m => ((f m.1).1, m.2 ++ (f m.1).2).

Definition emit (e : mail_effect) : W unit := (tt, [e]).

(** The [catch] block of both handlers. *)
Definition mail_failed : W outcome :=
  emit (MailError "Mail error:");;
  mret (error_reply 500 "Failed to send email").

Definition mail_sent : outcome :=
  Replied {| code := 200; content_of := CSuccess "Email sent!" |}.

(** The [mailOptions] of [/send-feedback] (lines 258-270): each
    [`${...}`] may raise. *)
Definition feedback_options (k : mailer) (name email message : option body_value)
  : completion mail_options :=
  match template name, template email, template message with
  | Normal n, Normal e, Normal t =>
      Normal
        {| msg_from := dquote +:+ n +:+ dquote +:+ " <" +:+ e +:+ ">";
           msg_to := BString <$> env_MAIL_RECEIVER k;
           msg_subject := Some (BString ("New Feedback from " +:+ n));
           msg_text :=
             Some (BString
                     (newline +:+ "You have received a new feedback:" +:+
                      newline +:+ newline +:+
                      "Name: " +:+ n +:+ newline +:+
                      "Email: " +:+ e +:+ newline +:+
                      "Message: " +:+ t +:+ newline +:+
                      "      "));
           msg_html := None |}
  | _, _, _ => Throw TypeError
  end.

(** Handler of [POST /send-feedback] (lines 242-277). *)
Definition send_feedback (k : mailer)
  (body : option (gmap string body_value)) : W outcome :=
  match body with
  | None => mret (Uncaught TypeError)
  | Some b =>
      let name := b !! "name" in
      let email := b !! "email" in
      let message := b !! "message" in
      if negb (present name) || negb (present email) || negb (present message)
      then mret (error_reply 400 "All fields are required.")
      else
        match feedback_options k name email message with
        | Throw _ => mail_failed
        | Normal mailOptions =>
            emit (Transport mailOptions);;
            if transport k mailOptions then mret mail_sent else mail_failed
        end
  end.

(** The [mailOptions] of [/api/send-email] (lines 292-298):
    [`${text}`] is evaluated, and may raise, only when [html] is
    falsy. *)
Definition email_options (k : mailer) (to subject text html : option body_value)
  : completion mail_options :=
  let from := "CollabUp <" +:+ env_text (env_MAIL_USER k) +:+ ">" in
  if present html
  then Normal {| msg_from := from; msg_to := to; msg_subject := subject;
                 msg_text := text; msg_html := html |}
  else
    match template text with
    | Normal t =>
        Normal {| msg_from := from; msg_to := to; msg_subject := subject;
                  msg_text := text;
                  msg_html := Some (BString ("<p>" +:+ t +:+ "</p>")) |}
    | Throw e => Throw e
    end.

(** Handler of [POST /api/send-email] (lines 279-306). *)
Definition send_email (k : mailer)
  (body : option (gmap string body_value)) : W outcome :=
  emit (Debug "DEBUG: /api/send-email req.body:");;
  match body with
  | None => mret (Uncaught TypeError)
  | Some b =>
      let to := b !! "to" in
      let subject := b !! "subject" in
      let text := b !! "text" in
      let html := b !! "html" in
      if negb (present to) || negb (present subject) || negb (present text)
      then mret (error_reply 400 "To, subject, and text are required.")
      else
        match email_options k to subject text html with
        | Throw _ => mail_failed
        | Normal mailOptions =>
            emit (Transport mailOptions);;
            if transport k mailOptions then mret mail_sent else mail_failed
        end
  end.

(** A mailer whose transport refuses every message, and three bodies. *)
Definition sample_mailer : mailer :=
  {| env_MAIL_USER := Some "noreply@example.org";
     env_MAIL_RECEIVER := Some "team@example.org";
     transport := λ _, false |}.

Definition feedback_body : gmap string body_value :=
  <[ "name" := BString "Bo" ]>
  (<[ "email" := BString "bo@example.org" ]>
  (<[ "message" := BString "hello" ]> ∅)).

(** [{"name": {"toString": 1}, "email": "a@b.c", "message": "hi"}] *)
Definition unprintable_feedback_body : gmap string body_value :=
  <[ "name" := BObject None ]>
  (<[ "email" := BString "a@b.c" ]>
  (<[ "message" := BString "hi" ]> ∅)).

Definition email_body : gmap string body_value :=
  <[ "to" := BString "anyone@example.org" ]>
  (<[ "subject" := BString "Hi" ]>
  (<[ "text" := BString "plain" ]> ∅)).

(** [{"to": "x@y.z", "subject": "s", "text": {"toString": 1}}] *)
Definition unprintable_email_body : gmap string body_value :=
  <[ "to" := BString "x@y.z" ]>
  (<[ "subject" := BString "s" ]>
  (<[ "text" := BObject None ]> ∅)).

End Mailer.

(** ** The CORS origin check (lines 36-78) *)

Module Cors.

(** The code units below 256 that [trim] removes: tab, line feed,
    vertical tab, form feed, carriage return, space and no-break space.
    Header values reach the process as Latin-1, so an [Origin] has no
    other code unit; the two environment variables are taken to hold
    such code units only. *)
Definition is_whitespace (c : ascii) : bool :=
  let n := nat_of_ascii c in
  Nat.eqb n 9 || Nat.eqb n 10 || Nat.eqb n 11 || Nat.eqb n 12 ||
  Nat.eqb n 13 || Nat.eqb n 32 || Nat.eqb n 160.

Fixpoint trimStart (s : string) : string :=
  match s with
  | EmptyString => EmptyString
  | String c s' => if is_whitespace c then trimStart s' else s
  end.

Fixpoint trimEnd (s : string) : string :=
  match s with
  | EmptyString => EmptyString
  | String c s' =>
      match trimEnd s' with
      | EmptyString => if is_whitespace c then EmptyString else String c ""
      | t => String c t
      end
  end.

(** [s.trim()] *)
Definition trim (s : string) : string := trimEnd (trimStart s).

(** [s.replace(/\/$/, "")]: one slash at the very end is removed. *)
Fixpoint strip_slash (s : string) : string :=
  match s with
  | EmptyString => EmptyString
  | String c EmptyString => if Ascii.eqb c "/" then EmptyString else s
  | String c s' => String c (strip_slash s')
  end.

(** [o.trim().replace(/\/$/, "")] *)
Definition normalize (o : string) : string := strip_slash (trim o).

(** [s.split(",")] *)
Fixpoint split_comma (s : string) : list string :=
  match s with
  | EmptyString => [ "" ]
  | String c s' =>
      if Ascii.eqb c "," then "" :: split_comma s'
      else match split_comma s' with
           | item :: rest => String c item :: rest
           | [] => [ String c "" ]
           end
  end.

Record environment : Type := {
  ALLOWED_ORIGIN : option string;
  ALLOWED_ORIGINS : option string
}.

(** The array literal of lines 37-47. *)
Definition listed_origins : list string :=
  [ "https://frontend-two-omega-26.vercel.app";
    "http://Collabup.live";
    "https://Collabup.live";
    "http://collabup.live";
    "https://collabup.live";
    "http://localhost:3000";
    "http://localhost:5173";
    "http://127.0.0.1:3000";
    "http://127.0.0.1:5173" ].

(** [allowedOrigins] once the two [push]es of lines 50-56 have run. *)
Definition allowedOrigins (e : environment) : list string :=
  listed_origins ++
  match ALLOWED_ORIGIN e with
  | None | Some "" => []
  | Some o => [ normalize o ]
  end ++
  match ALLOWED_ORIGINS e with
  | None | Some "" => []
  | Some l => normalize <$> split_comma l
  end.

Definition cleanedAllowedOrigins (e : environment) : list string :=
  normalize <$> allowedOrigins e.

(** What the [origin] function hands to its callback: [true], or the
    error, after logging the origin it blocked. *)
Inductive verdict : Type :=
| Allow
| Block (logged : string).

Definition origin_check (e : environment) (origin : option string) : verdict :=
  match origin with
  | None | Some "" => Allow
  | Some o =>
      let normalizedOrigin := normalize o in
      if existsb (String.eqb normalizedOrigin) (cleanedAllowedOrigins e)
      then Allow
      else Block o
  end.

End Cors.

(** ** Vocabulary of the statements *)

(** [P] is a prefix of [p]. *)
Definition is_prefix (P p : string) : Prop := ∃ t, p = P +:+ t.

(** [u] occurs in [p]. *)
Definition is_substring (u p : string) : Prop := ∃ a b, p = a +:+ u +:+ b.

(** The roots under which every allowed prefix lies. *)
Definition storage_roots : list string :=
  [ "users/"; "projects/"; "profile-pictures/"; "id-documents/";
    "enrollments/"; "project-files/" ].

(** The keys of [baseByRole]. *)
Definition known_roles : list string :=
  [ "student"; "faculty"; "mentor"; "startup"; "admin" ].

(** The segments of a slash-delimited path, as [p.split("/")] gives them. *)
Fixpoint path_segments (p : string) : list string :=
  match p with
  | EmptyString => [ "" ]
  | String c p' =>
      if Ascii.eqb c "/" then "" :: path_segments p'
      else match path_segments p' with
           | seg :: rest => String c seg :: rest
           | [] => [ String c "" ]
           end
  end.

(** ** What the string operations compute *)

Section Strings.

Lemma append_assoc (a b c : string) : (a +:+ b) +:+ c = a +:+ b +:+ c.
Proof.
  induction a as [|x a IH]; [reflexivity|].
  change (String x ((a +:+ b) +:+ c) = String x (a +:+ b +:+ c)).
  now rewrite IH.
Qed.

Lemma append_cons (x : ascii) (a b : string) :
  String x a +:+ b = String x (a +:+ b).
Proof. reflexivity. Qed.

Lemma startsWith_is_prefix (s p : string) :
  startsWith s p = true ↔ is_prefix p s.
Proof.
  revert s; induction p as [|c p IH]; intros s; simpl.
  - split; [intros _; now exists s | reflexivity].
  - destruct s as [|d s].
    + split; [discriminate | intros [t Ht]; discriminate].
    + destruct (Ascii.eqb_spec d c) as [->|Hne].
      * rewrite IH. split; intros [t Ht]; exists t.
        -- rewrite append_cons. now rewrite Ht.
        -- rewrite append_cons in Ht. now injection Ht.
      * split; [discriminate | intros [t Ht]].
        rewrite append_cons in Ht. injection Ht as Hd _. contradiction.
Qed.

Lemma includes_is_substring (s u : string) :
  includes s u = true ↔ is_substring u s.
Proof.
  induction s as [|c s IH]; simpl; rewrite orb_true_iff.
  - split.
    + intros [H|H]; [|discriminate].
      apply startsWith_is_prefix in H as [t Ht]. now exists "", t.
    + intros (a & b & H). left. apply startsWith_is_prefix.
      destruct a; [now exists b | discriminate].
  - split.
    + intros [H|H].
      * apply startsWith_is_prefix in H as [t Ht]. now exists "", t.
      * apply IH in H as (a & b & ->). now exists (String c a), b.
    + intros (a & b & H). destruct a as [|x a].
      * left. apply startsWith_is_prefix. now exists b.
      * right. apply IH. rewrite append_cons in H.
        injection H as _ ->. now exists a, b.
Qed.

Lemma includes_false (s u : string) :
  includes s u = false ↔ ¬ is_substring u s.
Proof.
  rewrite <- includes_is_substring. now destruct (includes s u).
Qed.

Lemma is_prefix_app (P t : string) : is_prefix P (P +:+ t).
Proof. now exists t. Qed.

Lemma is_prefix_weaken (a b p : string) :
  is_prefix (a +:+ b) p → is_prefix a p.
Proof. intros [t ->]. exists (b +:+ t). apply append_assoc. Qed.

Lemma is_substring_middle (a u b : string) : is_substring u (a +:+ u +:+ b).
Proof. now exists a, b. Qed.

Lemma exists_startsWith (p : string) (l : list string) :
  existsb (λ P, startsWith p P) l = true ↔ ∃ P, P ∈ l ∧ is_prefix P p.
Proof.
  rewrite existsb_exists. split; intros (P & HP & H); exists P.
  - split; [now apply list_elem_of_In | now apply startsWith_is_prefix].
  - split; [now apply list_elem_of_In | now apply startsWith_is_prefix].
Qed.

End Strings.

(** ** The prefix table, role by role *)

Section PrefixTable.

Variable uid : string.

Lemma baseByRole_lookup (role : string) :
  baseByRole uid !! role =
    if decide ("student" = role)
    then Some [ "users/students/" +:+ uid +:+ "/";
                "projects/student-projects/" ]
    else if decide ("faculty" = role)
    then Some [ "users/faculty/" +:+ uid +:+ "/";
                "projects/research-projects/" ]
    else if decide ("mentor" = role)
    then Some [ "users/mentors/" +:+ uid +:+ "/" ]
    else if decide ("startup" = role)
    then Some [ "users/startups/" +:+ uid +:+ "/";
                "projects/startup-projects/" ]
    else if decide ("admin" = role)
    then Some [ "users/admins/" +:+ uid +:+ "/"; "projects/"; "users/" ]
    else None.
Proof. unfold baseByRole. now rewrite !lookup_insert, lookup_empty. Qed.

Lemma allowedPrefixes_student :
  allowedPrefixes "student" uid =
    Normal ([ "users/students/" +:+ uid +:+ "/";
              "projects/student-projects/" ] ++ legacy uid).
Proof. unfold allowedPrefixes, get. now rewrite baseByRole_lookup. Qed.

Lemma allowedPrefixes_faculty :
  allowedPrefixes "faculty" uid =
    Normal ([ "users/faculty/" +:+ uid +:+ "/";
              "projects/research-projects/" ] ++ legacy uid).
Proof. unfold allowedPrefixes, get. now rewrite baseByRole_lookup. Qed.

Lemma allowedPrefixes_mentor :
  allowedPrefixes "mentor" uid =
    Normal ([ "users/mentors/" +:+ uid +:+ "/" ] ++ legacy uid).
Proof. unfold allowedPrefixes, get. now rewrite baseByRole_lookup. Qed.

Lemma allowedPrefixes_startup :
  allowedPrefixes "startup" uid =
    Normal ([ "users/startups/" +:+ uid +:+ "/";
              "projects/startup-projects/" ] ++ legacy uid).
Proof. unfold allowedPrefixes, get. now rewrite baseByRole_lookup. Qed.

Lemma allowedPrefixes_admin :
  allowedPrefixes "admin" uid =
    Normal ([ "users/admins/" +:+ uid +:+ "/"; "projects/"; "users/" ]
              ++ legacy uid).
Proof. unfold allowedPrefixes, get. now rewrite baseByRole_lookup. Qed.

Lemma baseByRole_unknown (role : string) :
  role ∉ known_roles → baseByRole uid !! role = None.
Proof.
  intros H. rewrite baseByRole_lookup.
  repeat case_decide; try reflexivity; subst role;
    exfalso; apply H; apply (bool_decide_unpack _); vm_compute; exact I.
Qed.

Lemma inherited_unknown (role : string) :
  inherited role = true → role ∉ known_roles.
Proof.
  unfold inherited. rewrite existsb_exists.
  intros (k & Hk & Heq). apply String.eqb_eq in Heq. subst k.
  unfold Object_prototype_names in Hk. simpl in Hk.
  repeat (destruct Hk as [<-|Hk];
          [apply (bool_decide_unpack _); vm_compute; exact I|]).
  destruct Hk.
Qed.

Lemma allowedPrefixes_unknown (role : string) :
  role ∉ known_roles → inherited role = false →
  allowedPrefixes role uid = Normal (legacy uid).
Proof.
  intros H Hi. unfold allowedPrefixes, get.
  now rewrite baseByRole_unknown, Hi.
Qed.

Lemma allowedPrefixes_inherited (role : string) :
  inherited role = true → allowedPrefixes role uid = Throw TypeError.
Proof.
  intros Hi. unfold allowedPrefixes, get.
  rewrite baseByRole_unknown by now apply inherited_unknown.
  now rewrite Hi.
Qed.

(** Every list of allowed prefixes ends with the legacy ones. *)
Lemma allowedPrefixes_legacy (role : string) (prefixes : list string) :
  allowedPrefixes role uid = Normal prefixes →
  ∃ base, prefixes = base ++ legacy uid.
Proof.
  unfold allowedPrefixes.
  destruct (spread_or_empty _) as [base|e]; [|discriminate].
  intros [= <-]. now exists base.
Qed.

(** The role lookup raises exactly on the names of [Object.prototype]. *)
Lemma allowedPrefixes_throws (role : string) :
  allowedPrefixes role uid = Throw TypeError ↔ inherited role = true.
Proof.
  split; [|apply allowedPrefixes_inherited].
  unfold allowedPrefixes, get.
  destruct (baseByRole uid !! role); [discriminate|].
  now destruct (inherited role).
Qed.

End PrefixTable.

(** ** The decision, characterised *)

(** Case analysis on membership in a list written out in full. *)
Ltac list_cases H :=
  repeat (apply elem_of_cons in H as [->|H]);
  [ .. | apply elem_of_nil in H; destruct H ].

Section Decision.

Variables role uid p : string.

Lemma isPathAllowedForRole_true :
  isPathAllowedForRole role uid p = Normal true ↔
  ∃ prefixes, allowedPrefixes role uid = Normal prefixes ∧
    (∃ P, P ∈ prefixes ∧ is_prefix P p) ∧
    (role = "admin" ∨ is_substring uid p).
Proof.
  unfold isPathAllowedForRole.
  destruct (allowedPrefixes role uid) as [prefixes|e]; cbv zeta.
  - pose proof (exists_startsWith p prefixes) as Hpre.
    pose proof (includes_is_substring p uid) as Hinc.
    destruct (existsb _ prefixes); simpl.
    + destruct (String.eqb_spec role "admin") as [Hr|Hr]; simpl.
      * split; [intros _|reflexivity].
        exists prefixes. split; [reflexivity|]. split; [now apply Hpre|now left].
      * destruct (includes p uid); simpl.
        -- split; [intros _|reflexivity].
           exists prefixes. split; [reflexivity|].
           split; [now apply Hpre|right; now apply Hinc].
        -- split; [discriminate|].
           intros (l & _ & _ & [Hr'|Hs]); [contradiction|].
           apply Hinc in Hs. discriminate.
    + split; [discriminate|].
      intros (l & [= <-] & Hex & _). apply Hpre in Hex. discriminate.
  - split; [discriminate|]. intros (l & Hl & _). discriminate.
Qed.

Lemma isPathAllowedForRole_false :
  isPathAllowedForRole role uid p = Normal false ↔
  ∃ prefixes, allowedPrefixes role uid = Normal prefixes ∧
    ((¬ ∃ P, P ∈ prefixes ∧ is_prefix P p) ∨
     (role ≠ "admin" ∧ ¬ is_substring uid p)).
Proof.
  unfold isPathAllowedForRole.
  destruct (allowedPrefixes role uid) as [prefixes|e]; cbv zeta.
  - pose proof (exists_startsWith p prefixes) as Hpre.
    pose proof (includes_false p uid) as Hinc.
    destruct (existsb _ prefixes); simpl.
    + destruct (String.eqb_spec role "admin") as [Hr|Hr]; simpl.
      * split; [discriminate|].
        intros (l & [= <-] & [Hn|[Hn _]]); [|contradiction].
        exfalso. apply Hn. now apply Hpre.
      * destruct (includes p uid); simpl.
        -- split; [discriminate|].
           intros (l & [= <-] & [Hn|[_ Hn]]).
           ++ exfalso. apply Hn. now apply Hpre.
           ++ apply Hinc in Hn. discriminate.
        -- split; [intros _|reflexivity].
           exists prefixes. split; [reflexivity|]. right. split; [assumption|].
           now apply Hinc.
    + split; [intros _|reflexivity].
      exists prefixes. split; [reflexivity|]. left.
      intros Hex. apply Hpre in Hex. discriminate.
  - split; [discriminate|]. intros (l & Hl & _). discriminate.
Qed.

Lemma isPathAllowedForRole_throws (e : error) :
  isPathAllowedForRole role uid p = Throw e ↔
  allowedPrefixes role uid = Throw e.
Proof.
  unfold isPathAllowedForRole.
  destruct (allowedPrefixes role uid) as [prefixes|e']; cbv zeta.
  - destruct (negb _); [split; discriminate|].
    destruct (_ && _); split; discriminate.
  - split; intros [= ->]; reflexivity.
Qed.

End Decision.

(** ** Properties of [isPathAllowedForRole] *)

Section Claims.

(** A path under the legacy root [project-files/] that contains the uid
    is allowed for every role whose lookup in [baseByRole] does not hit
    [Object.prototype]. *)
Lemma legacy_project_files_allowed (r u p : string) :
  inherited r = false →
  is_prefix "project-files/" p → is_substring u p →
  isPathAllowedForRole r u p = Normal true.
Proof.
  intros Hi Hpre Hsub.
  destruct (allowedPrefixes r u) as [prefixes|[]] eqn:Hl.
  - apply isPathAllowedForRole_true. exists prefixes.
    split; [assumption|]. split; [|now right].
    exists "project-files/". split; [|assumption].
    apply allowedPrefixes_legacy in Hl as [base ->].
    apply elem_of_app. right. unfold legacy.
    do 3 apply list_elem_of_further. apply list_elem_of_here.
  - apply allowedPrefixes_throws in Hl. congruence.
Qed.

(** For a role that is neither a key of [baseByRole] nor a name of
    [Object.prototype], only the legacy prefixes can match. *)
Lemma unknown_role_only_legacy (r u p : string) :
  r ∉ known_roles → inherited r = false →
  (isPathAllowedForRole r u p = Normal true ↔
   (∃ P, P ∈ legacy u ∧ is_prefix P p) ∧ is_substring u p).
Proof.
  intros Hr Hi. rewrite isPathAllowedForRole_true.
  rewrite allowedPrefixes_unknown by assumption.
  assert (r ≠ "admin") as Hna.
  { intros ->. apply Hr. apply (bool_decide_unpack _). vm_compute. exact I. }
  split.
  - intros (l & [= <-] & Hex & [Hadm|Hs]); [contradiction|]. now split.
  - intros [Hex Hs]. exists (legacy u). split; [reflexivity|].
    split; [assumption|now right].
Qed.

(** Each allowed prefix of a role is covered by an allowed prefix of
    admin. *)
Lemma admin_covers (r u P p : string) (prefixes : list string) :
  allowedPrefixes r u = Normal prefixes → P ∈ prefixes → is_prefix P p →
  ∃ Q, Q ∈ [ "users/admins/" +:+ u +:+ "/"; "projects/"; "users/" ]
             ++ legacy u ∧ is_prefix Q p.
Proof.
  intros Hl HP Hpre.
  assert (is_prefix "users/" p ∨ is_prefix "projects/" p ∨ P ∈ legacy u)
    as Hcov.
  { revert Hl. unfold allowedPrefixes, get. rewrite baseByRole_lookup.
    repeat case_decide; try destruct (inherited r);
      cbv beta iota delta [spread_or_empty]; intros [= <-];
      rewrite ?elem_of_app, ?elem_of_cons, ?elem_of_nil in HP;
      repeat match goal with H : _ ∨ _ |- _ => destruct H as [H|H] end;
      subst;
      first
        [ contradiction
        | right; right; assumption
        | left; now apply (is_prefix_weaken "users/" _ p Hpre)
        | right; left; now apply (is_prefix_weaken "projects/" _ p Hpre)
        | left; assumption
        | right; left; assumption ]. }
  destruct Hcov as [H|[H|H]].
  - exists "users/". split; [|assumption].
    do 2 apply list_elem_of_further. apply list_elem_of_here.
  - exists "projects/". split; [|assumption].
    apply list_elem_of_further, list_elem_of_here.
  - exists P. split; [|assumption]. apply elem_of_app. now right.
Qed.

End Claims.

(** ** The claims about [isPathAllowedForRole] *)

(** Decide a closed membership or non-membership goal by evaluation. *)
Ltac by_evaluation := apply (bool_decide_unpack _); vm_compute; exact I.

(** C1.  For a role other than admin, a path that is allowed starts with
    one of the role's allowed prefixes (role-specific or legacy) and
    contains the uid.  Hence a path that does not contain the uid is never
    allowed, and the answer is [false] whenever the role lookup itself
    succeeds, which it does for student, faculty, mentor and startup. *)
Theorem nonadmin_needs_prefix_and_uid (r u p : string) :
  r ≠ "admin" →
  (isPathAllowedForRole r u p = Normal true →
   (∃ prefixes P, allowedPrefixes r u = Normal prefixes ∧
                  P ∈ prefixes ∧ is_prefix P p) ∧
   is_substring u p) ∧
  (¬ is_substring u p → isPathAllowedForRole r u p ≠ Normal true) ∧
  (¬ is_substring u p → inherited r = false →
   isPathAllowedForRole r u p = Normal false).
Proof.
  intros Hr.
  assert (isPathAllowedForRole r u p = Normal true → is_substring u p) as Hs.
  { intros H. apply isPathAllowedForRole_true in H as (l & _ & _ & [?|?]);
      [contradiction|assumption]. }
  split; [|split].
  - intros H. split; [|now apply Hs].
    apply isPathAllowedForRole_true in H as (l & Hl & (P & HP & Hpre) & _).
    now exists l, P.
  - intros Hn H. apply Hn, Hs, H.
  - intros Hn Hi. apply isPathAllowedForRole_false.
    destruct (allowedPrefixes r u) as [l|[]] eqn:Hl.
    + exists l. split; [reflexivity|]. now right.
    + apply allowedPrefixes_throws in Hl. congruence.
Qed.

Lemma nonadmin_needs_prefix_and_uid_witness :
  "mentor" ≠ "admin" ∧
  ¬ is_substring "u1" "users/mentors/u2/file.pdf" ∧
  inherited "mentor" = false ∧
  isPathAllowedForRole "mentor" "u1" "users/mentors/u2/file.pdf"
    = Normal false.
Proof.
  assert ("mentor" ≠ "admin") as Hr by discriminate.
  assert (¬ is_substring "u1" "users/mentors/u2/file.pdf") as Hn
    by (apply includes_false; vm_compute; reflexivity).
  assert (inherited "mentor" = false) as Hi by (vm_compute; reflexivity).
  split; [exact Hr|]. split; [exact Hn|]. split; [exact Hi|].
  exact (proj2 (proj2 (nonadmin_needs_prefix_and_uid
                         "mentor" "u1" "users/mentors/u2/file.pdf" Hr))
           Hn Hi).
Defined.

(** C2.  For student, faculty, mentor and startup and a non-empty uid, the
    role has a list of allowed prefixes, and for every prefix [P] in it
    the path [P + uid + "/x"] is allowed.  In particular
    [isPathAllowedForRole("student", "u1", "users/students/u1/resume.pdf")]
    is true. *)
Theorem own_path_allowed (r u : string) :
  r ∈ [ "student"; "faculty"; "mentor"; "startup" ] → u ≠ "" →
  (∃ prefixes, allowedPrefixes r u = Normal prefixes ∧
     ∀ P, P ∈ prefixes →
          isPathAllowedForRole r u (P +:+ u +:+ "/x") = Normal true) ∧
  isPathAllowedForRole "student" "u1" "users/students/u1/resume.pdf"
    = Normal true.
Proof.
  intros Hr _. split; [|vm_compute; reflexivity].
  assert (∃ prefixes, allowedPrefixes r u = Normal prefixes) as [l Hl].
  { list_cases Hr; eexists;
      [ apply allowedPrefixes_student | apply allowedPrefixes_faculty
      | apply allowedPrefixes_mentor | apply allowedPrefixes_startup ]. }
  exists l. split; [assumption|]. intros P HP.
  apply isPathAllowedForRole_true. exists l. split; [assumption|]. split.
  - exists P. split; [assumption|apply is_prefix_app].
  - right. apply is_substring_middle.
Qed.

Lemma own_path_allowed_witness :
  "faculty" ∈ [ "student"; "faculty"; "mentor"; "startup" ] ∧
  "u7" ≠ "" ∧
  isPathAllowedForRole "faculty" "u7" "projects/research-projects/u7/x"
    = Normal true.
Proof.
  assert ("faculty" ∈ [ "student"; "faculty"; "mentor"; "startup" ]) as Hr
    by (apply list_elem_of_further, list_elem_of_here).
  assert ("u7" ≠ "") as Hu by discriminate.
  split; [exact Hr|]. split; [exact Hu|].
  destruct (proj1 (own_path_allowed "faculty" "u7" Hr Hu)) as (l & Hl & H).
  apply (H "projects/research-projects/").
  rewrite allowedPrefixes_faculty in Hl. injection Hl as <-.
  apply list_elem_of_further, list_elem_of_here.
Defined.

(** C3, as the claim states it, fails: admin is also allowed under the
    legacy prefixes, which are none of [users/admins/{uid}/], [projects/]
    and [users/]. *)
Lemma admin_configured_prefixes_counterexample :
  ¬ (isPathAllowedForRole "admin" "u1" "project-files/x" = Normal true ↔
     ∃ P, P ∈ [ "users/admins/" +:+ "u1" +:+ "/"; "projects/"; "users/" ] ∧
          is_prefix P "project-files/x").
Proof.
  intros [H _]. destruct H as (P & HP & Hpre); [vm_compute; reflexivity|].
  apply startsWith_is_prefix in Hpre.
  list_cases HP; vm_compute in Hpre; discriminate.
Qed.

(** C3, amended.  For role admin, whether or not the path contains the
    uid, the path is allowed if and only if it starts with one of admin's
    configured prefixes ([users/admins/{uid}/], [projects/], [users/]) or
    with one of the legacy prefixes, and it is refused otherwise.
    [isPathAllowedForRole("admin", "anyone", "users/students/u9/x")] is
    true. *)
Theorem admin_allowed_iff_prefix :
  (∀ u p : string,
     let prefixes :=
       [ "users/admins/" +:+ u +:+ "/"; "projects/"; "users/" ] ++ legacy u in
     (isPathAllowedForRole "admin" u p = Normal true ↔
      ∃ P, P ∈ prefixes ∧ is_prefix P p) ∧
     (isPathAllowedForRole "admin" u p = Normal false ↔
      ¬ ∃ P, P ∈ prefixes ∧ is_prefix P p)) ∧
  isPathAllowedForRole "admin" "anyone" "users/students/u9/x" = Normal true.
Proof.
  split; [|vm_compute; reflexivity].
  intros u p prefixes. subst prefixes. split.
  - rewrite isPathAllowedForRole_true, allowedPrefixes_admin. split.
    + now intros (l & [= <-] & H & _).
    + intros H. eexists. split; [reflexivity|]. split; [assumption|now left].
  - rewrite isPathAllowedForRole_false, allowedPrefixes_admin. split.
    + intros (l & [= <-] & [H|[H _]]); [assumption|contradiction].
    + intros H. eexists. split; [reflexivity|]. now left.
Qed.

(** C4 at role [constructor]: the path starts with [project-files/] and
    contains the uid, yet the call raises a [TypeError] instead of
    returning true. *)
Theorem legacy_project_files_constructor :
  is_prefix "project-files/" "project-files/p1/u1/a.pdf" ∧
  is_substring "u1" "project-files/p1/u1/a.pdf" ∧
  isPathAllowedForRole "constructor" "u1" "project-files/p1/u1/a.pdf"
    = Throw TypeError.
Proof.
  split; [|split].
  - apply startsWith_is_prefix. vm_compute. reflexivity.
  - apply includes_is_substring. vm_compute. reflexivity.
  - vm_compute. reflexivity.
Qed.

(** C5.  [isPathAllowedForRole("student", "u1",
    "projects/research-projects/u1/file.pdf")] is false: the path contains
    the uid, but [projects/research-projects/] is a prefix of faculty and
    not one of student. *)
Theorem student_refused_research_projects :
  isPathAllowedForRole "student" "u1" "projects/research-projects/u1/file.pdf"
    = Normal false ∧
  is_substring "u1" "projects/research-projects/u1/file.pdf" ∧
  (∃ prefixes, allowedPrefixes "student" "u1" = Normal prefixes ∧
               "projects/research-projects/" ∉ prefixes) ∧
  (∃ prefixes, allowedPrefixes "faculty" "u1" = Normal prefixes ∧
               "projects/research-projects/" ∈ prefixes).
Proof.
  split; [vm_compute; reflexivity|]. split.
  - apply includes_is_substring. vm_compute. reflexivity.
  - split; eexists; (split; [vm_compute; reflexivity|by_evaluation]).
Qed.

(** C6.  The uid check is substring containment, not a match on a path
    segment: [isPathAllowedForRole("student", "u1",
    "projects/student-projects/other123_u1/data")] is true although no
    segment of the path is [u1]. *)
Theorem uid_check_is_substring :
  isPathAllowedForRole "student" "u1"
    "projects/student-projects/other123_u1/data" = Normal true ∧
  path_segments "projects/student-projects/other123_u1/data"
    = [ "projects"; "student-projects"; "other123_u1"; "data" ] ∧
  ("u1" ∉ path_segments "projects/student-projects/other123_u1/data") ∧
  is_substring "u1" "other123_u1".
Proof.
  split; [vm_compute; reflexivity|]. split; [vm_compute; reflexivity|].
  split; [by_evaluation|].
  apply includes_is_substring. vm_compute. reflexivity.
Qed.

(** C7 at role [toString], which is none of student, faculty, mentor,
    startup and admin: the path starts with a legacy prefix and contains
    the uid, yet the call raises a [TypeError] instead of returning
    true. *)
Theorem unknown_role_toString :
  ("toString" ∉ known_roles) ∧
  (∃ P, P ∈ legacy "u1" ∧ is_prefix P "enrollments/u1/form.pdf") ∧
  is_substring "u1" "enrollments/u1/form.pdf" ∧
  isPathAllowedForRole "toString" "u1" "enrollments/u1/form.pdf"
    = Throw TypeError.
Proof.
  split; [by_evaluation|]. split; [|split].
  - exists "enrollments/u1/". split; [by_evaluation|].
    apply startsWith_is_prefix. vm_compute. reflexivity.
  - apply includes_is_substring. vm_compute. reflexivity.
  - vm_compute. reflexivity.
Qed.

(** C10.  Whatever a role is allowed, admin is allowed too: if
    [isPathAllowedForRole(r, u, p)] is true then so is
    [isPathAllowedForRole("admin", u, p)]. *)
Theorem admin_dominates (r u p : string) :
  isPathAllowedForRole r u p = Normal true →
  isPathAllowedForRole "admin" u p = Normal true.
Proof.
  intros H.
  apply isPathAllowedForRole_true in H as (l & Hl & (P & HP & Hpre) & _).
  apply isPathAllowedForRole_true. eexists.
  split; [apply allowedPrefixes_admin|].
  split; [now apply (admin_covers r u P p l)|now left].
Qed.

Lemma admin_dominates_witness :
  isPathAllowedForRole "startup" "s3" "projects/startup-projects/s3/deck.pdf"
    = Normal true ∧
  isPathAllowedForRole "admin" "s3" "projects/startup-projects/s3/deck.pdf"
    = Normal true.
Proof.
  assert (isPathAllowedForRole "startup" "s3"
            "projects/startup-projects/s3/deck.pdf" = Normal true) as H
    by (vm_compute; reflexivity).
  split; [assumption|].
  exact (admin_dominates "startup" "s3"
           "projects/startup-projects/s3/deck.pdf" H).
Defined.

(** ** The routes *)

Import Server.

Ltac event_cases H :=
  repeat (apply elem_of_cons in H as [H|H]; simplify_eq);
  try (apply elem_of_nil in H; destruct H).

Section Routes.

Variables (w : world) (req : request).

Lemma verifyAuth_calls : Forall quiet (verifyAuth w req).2.
Proof.
  unfold verifyAuth, call, mbind, mret, M_bind, M_ret.
  repeat case_match; simplify_eq/=; repeat constructor.
Qed.

Lemma getUserRole_calls (uid : string) : Forall quiet (getUserRole w uid).2.
Proof.
  unfold getUserRole, call, mbind, mret, M_bind, M_ret.
  destruct (firestore_doc_get w _); cbn; repeat constructor.
Qed.

(** The paths through a handler: either it answers before the check, or
    it evaluates the check once, and what follows depends on the
    result. *)
Lemma handler_paths (ep : endpoint) (user : DecodedIdToken) :
  Forall quiet (handler ep w req user).2 ∨
  ∃ role path before after,
    let result := isPathAllowedForRole_on role (user_uid user) path in
    (handler ep w req user).2 =
      before ++
      CallIsPathAllowedForRole role (user_uid user) path result :: after ∧
    Forall quiet before ∧
    Forall (λ e, is_check e = false) after ∧
    (result = Normal false →
     (handler ep w req user).1 = denial ep ∧ after = []) ∧
    (result ≠ Normal true → Forall (λ e, is_signing e = false) after).
Proof.
  destruct ep; unfold handler, signed_url, signed_url_read;
    (destruct (bucketName w) as [[|c bucket]|];
     [left; constructor| |left; constructor]);
    generalize (default {| objectPath := JUndefined;
                           contentType := JUndefined |} (req_body req));
    intros b;
    (match goal with
     | |- context [if ?c then _ else _] => destruct c
     end; [left; constructor|]);
    (destruct (String.eqb (user_uid user) ""); [left; constructor|]);
    pose proof (getUserRole_calls (user_uid user)) as Hrole;
    destruct (getUserRole w (user_uid user)) as [role before];
    right; exists role, (objectPath b), before;
    unfold call_isPathAllowedForRole, call, mbind, mret, M_bind, M_ret;
    cbn [fst snd];
    destruct (isPathAllowedForRole_on role (user_uid user) (objectPath b))
      as [[|]|e];
    try destruct (getSignedUrl w _ _ _ _);
    eexists; cbn;
    (split; [reflexivity|]); (split; [exact Hrole|]);
    (split; [repeat constructor|]);
    (split; [try discriminate; intros _; split; reflexivity|]);
    intros Hne; try congruence; repeat constructor.
Qed.

(** The same paths, seen from the route. *)
Lemma serve_paths (ep : endpoint) :
  Forall quiet (serve ep w req).2 ∨
  ∃ role uid path before after,
    let result := isPathAllowedForRole_on role uid path in
    (serve ep w req).2 =
      before ++ CallIsPathAllowedForRole role uid path result :: after ∧
    Forall quiet before ∧
    Forall (λ e, is_check e = false) after ∧
    (result = Normal false → (serve ep w req).1 = denial ep ∧ after = []) ∧
    (result ≠ Normal true → Forall (λ e, is_signing e = false) after).
Proof.
  assert (serve ep w req = route (handler ep) w req) as -> by now destruct ep.
  unfold route, mbind, M_bind.
  pose proof verifyAuth_calls as Hauth.
  destruct (verifyAuth w req) as [[resp|user] t]; cbn [fst snd] in *.
  - left. cbn. now rewrite app_nil_r.
  - destruct (handler_paths ep user)
      as [Hq|(role & path & before & after & Htrace & Hb & Hrest)].
    + left. now apply Forall_app.
    + right. exists role, (user_uid user), path, (t ++ before), after.
      cbv zeta in *. rewrite Htrace, app_assoc.
      split; [reflexivity|]. split; [now apply Forall_app|]. exact Hrest.
Qed.

(** A recorded evaluation of the check is the one evaluation of the
    request; it carries the value of [isPathAllowedForRole] on its
    arguments; and when that value is false the route answers the denial,
    signs nothing and makes no further call. *)
Lemma serve_check (ep : endpoint) (role uid : string) (path : jsval)
  (result : completion bool) :
  let check := CallIsPathAllowedForRole role uid path result in
  check ∈ (serve ep w req).2 →
  result = isPathAllowedForRole_on role uid path ∧
  (result = Normal false →
   (serve ep w req).1 = denial ep ∧
   Forall (λ e, is_signing e = false) (serve ep w req).2 ∧
   last (serve ep w req).2 = Some check).
Proof.
  intros check Hin. subst check.
  destruct (serve_paths ep)
    as [Hq|(role' & uid' & path' & before & after & Htrace & Hb & Ha
            & Hfalse & _)].
  - rewrite Forall_forall in Hq. apply Hq in Hin as [_ Hc]. discriminate.
  - cbv zeta in *. rewrite Htrace in Hin |- *.
    apply elem_of_app in Hin as [Hin|Hin].
    { rewrite Forall_forall in Hb. apply Hb in Hin as [_ Hc]. discriminate. }
    apply elem_of_cons in Hin as [Hin|Hin].
    2: { rewrite Forall_forall in Ha. apply Ha in Hin. discriminate. }
    injection Hin as <- <- <- ->. split; [reflexivity|].
    intros Hres. destruct (Hfalse Hres) as [Hresp ->].
    split; [assumption|]. split.
    + apply Forall_app. split; [|repeat constructor].
      eapply Forall_impl; [exact Hb|]. now intros e [Hs _].
    + apply last_snoc.
Qed.

(** A request that passes authentication and validation reaches the
    check, on the role read from the document store, the uid of the token
    and the path of the body. *)
Lemma check_reached (ep : endpoint) (tok bucket p : string)
  (user : DecodedIdToken) (b : body) :
  authorization req = Some ("Bearer " +:+ tok) → tok ≠ "" →
  verifyIdToken w tok = Some user → user_uid user ≠ "" →
  bucketName w = Some bucket → bucket ≠ "" →
  req_body req = Some b → objectPath b = JStr p → p ≠ "" →
  truthy (contentType b) = true →
  let role := (getUserRole w (user_uid user)).1 in
  CallIsPathAllowedForRole role (user_uid user) (JStr p)
    (isPathAllowedForRole role (user_uid user) p) ∈ (serve ep w req).2.
Proof.
  intros Hauth Htok Hver Huid Hbucket Hb Hbody Hpath Hp Hct role.
  assert (serve ep w req = route (handler ep) w req) as -> by now destruct ep.
  assert (verifyAuth w req = (inr user, [CallVerifyIdToken tok])) as Hv.
  { unfold verifyAuth. rewrite Hauth.
    destruct tok as [|c tok']; [contradiction|].
    cbv -[verifyIdToken]. now rewrite Hver. }
  unfold route, mbind, M_bind. rewrite Hv. cbn [fst snd app].
  apply list_elem_of_further.
  destruct ep; unfold handler, signed_url, signed_url_read;
    rewrite Hbucket; destruct bucket as [|c' bucket']; try contradiction;
    rewrite Hbody; cbn [default from_option id]; rewrite Hpath, ?Hct;
    cbn [truthy];
    destruct (String.eqb_spec p "") as [|_]; try contradiction;
    destruct (String.eqb_spec (user_uid user) "") as [|_]; try contradiction;
    cbn [negb orb];
    unfold call_isPathAllowedForRole, call, mbind, mret, M_bind, M_ret;
    cbn [fst snd]; apply elem_of_app; right; apply list_elem_of_here.
Qed.

End Routes.

(** C8.  On both routes, when the call
    [isPathAllowedForRole(role, uid, objectPath)] that the handler makes
    returns false, the response is HTTP 403 with the route's fixed message,
    the signing operation is not invoked, and the handler makes no call
    after the check, so nothing is created. *)
Theorem denied_without_signing (ep : endpoint) (w : world) (req : request)
  (role uid : string) (path : jsval) :
  CallIsPathAllowedForRole role uid path (Normal false) ∈ (serve ep w req).2 →
  (∃ p, path = JStr p ∧ isPathAllowedForRole role uid p = Normal false) ∧
  (serve ep w req).1 = denial ep ∧
  status (denial ep) = 403 ∧
  Forall (λ e, is_signing e = false) (serve ep w req).2 ∧
  last (serve ep w req).2
    = Some (CallIsPathAllowedForRole role uid path (Normal false)).
Proof.
  intros Hin. apply serve_check in Hin as [Hres Hdenied].
  destruct (Hdenied eq_refl) as (Hresp & Hsign & Hlast).
  split.
  - destruct path; try discriminate. now eexists.
  - split; [assumption|]. split; [now destruct ep|]. now split.
Qed.

Lemma denied_without_signing_witness :
  let check :=
    CallIsPathAllowedForRole "mentor" "u1" (JStr "users/mentors/u2/file.pdf")
      (Normal false) in
  (check ∈ (serve SignedUrl sample_world sample_request).2 ∧
   (serve SignedUrl sample_world sample_request).1 =
     json_error 403 "Upload path not allowed for your role" ∧
   Forall (λ e, is_signing e = false)
     (serve SignedUrl sample_world sample_request).2) ∧
  (check ∈ (serve SignedUrlRead sample_world sample_request).2 ∧
   (serve SignedUrlRead sample_world sample_request).1 =
     json_error 403 "Read path not allowed for your role" ∧
   Forall (λ e, is_signing e = false)
     (serve SignedUrlRead sample_world sample_request).2).
Proof.
  intros check.
  assert (check ∈ (serve SignedUrl sample_world sample_request).2) as H1
    by (vm_compute; do 2 apply list_elem_of_further; apply list_elem_of_here).
  assert (check ∈ (serve SignedUrlRead sample_world sample_request).2) as H2
    by (vm_compute; do 2 apply list_elem_of_further; apply list_elem_of_here).
  split.
  - split; [exact H1|].
    destruct (denied_without_signing SignedUrl sample_world sample_request
                _ _ _ H1) as (_ & Hresp & _ & Hsign & _).
    split; [exact Hresp|exact Hsign].
  - split; [exact H2|].
    destruct (denied_without_signing SignedUrlRead sample_world sample_request
                _ _ _ H2) as (_ & Hresp & _ & Hsign & _).
    split; [exact Hresp|exact Hsign].
Defined.

(** ** Further properties of the authorization and of the two routes *)

Section Extension.

Lemma is_prefix_extend (P p s : string) : is_prefix P p → is_prefix P (p +:+ s).
Proof. intros [t ->]. exists (t +:+ s). apply append_assoc. Qed.

Lemma is_substring_extend (u p s : string) :
  is_substring u p → is_substring u (p +:+ s).
Proof.
  intros (a & b & ->). exists a, (b +:+ s).
  now rewrite !append_assoc.
Qed.

End Extension.

(** X1.  Authorization is closed under extension of the path: whatever a
    role and uid are allowed, they are allowed on every path that
    continues it. *)
Theorem allowed_path_extends (r u p s : string) :
  isPathAllowedForRole r u p = Normal true →
  isPathAllowedForRole r u (p +:+ s) = Normal true.
Proof.
  intros H.
  apply isPathAllowedForRole_true in H as (l & Hl & (P & HP & Hpre) & Hu).
  apply isPathAllowedForRole_true. exists l. split; [assumption|]. split.
  - exists P. split; [assumption|now apply is_prefix_extend].
  - destruct Hu as [Hu|Hu]; [now left|right; now apply is_substring_extend].
Qed.

Lemma allowed_path_extends_witness :
  isPathAllowedForRole "mentor" "m4" "users/mentors/m4/" = Normal true ∧
  isPathAllowedForRole "mentor" "m4" "users/mentors/m4/cv/2024.pdf"
    = Normal true.
Proof.
  assert (isPathAllowedForRole "mentor" "m4" "users/mentors/m4/" = Normal true)
    as H by (vm_compute; reflexivity).
  split; [exact H|].
  exact (allowed_path_extends "mentor" "m4" "users/mentors/m4/"
           "cv/2024.pdf" H).
Defined.

Section Authentication.

Variables (w : world) (req : request).

Lemma bearer_token (h : string) :
  startsWith h "Bearer " = true → h = "Bearer " +:+ substring_from 7 h.
Proof.
  intros H. apply startsWith_is_prefix in H as [t ->]. reflexivity.
Qed.

End Authentication.

Section AuthenticationView.

Variables (w : world) (req : request).

(** The three ways [verifyAuth] ends. *)
Lemma verifyAuth_view :
  ((¬ ∃ tok, authorization req = Some ("Bearer " +:+ tok) ∧ tok ≠ "") ∧
   verifyAuth w req =
     (inl (json_error 401 "Missing Authorization Bearer token"), [])) ∨
  ∃ tok, authorization req = Some ("Bearer " +:+ tok) ∧ tok ≠ "" ∧
    ((∃ user, verifyIdToken w tok = Some user ∧
              verifyAuth w req = (inr user, [CallVerifyIdToken tok])) ∨
     (verifyIdToken w tok = None ∧
      verifyAuth w req =
        (inl (json_error 401 "Invalid or expired token"),
         [CallVerifyIdToken tok; CallConsoleError "Auth verify error:"]))).
Proof.
  unfold verifyAuth. cbv zeta.
  destruct (authorization req) as [h|]; cbn [default from_option id].
  2: { left. split; [now intros (tok & ? & _)|reflexivity]. }
  destruct (startsWith h "Bearer ") eqn:Hb.
  2: { left. split; [|reflexivity].
       intros (tok & [= ->] & _). now vm_compute in Hb. }
  apply bearer_token in Hb.
  destruct (substring_from 7 h) as [|c tok] eqn:Htok.
  { left. split; [|reflexivity].
    intros (tok & [= Hh] & Hne). rewrite Hh in Hb.
    apply (inj (String.append "Bearer ")) in Hb. congruence. }
  right. exists (String c tok). rewrite Hb.
  split; [reflexivity|]. split; [discriminate|].
  unfold call, mbind, mret, M_bind, M_ret.
  destruct (verifyIdToken w (String c tok)) as [decoded|] eqn:Hv;
    cbn [fst snd app]; [left; now exists decoded|right; now split].
Qed.

Lemma bearer_inj (a b : string) :
  Some ("Bearer " +:+ a) = Some ("Bearer " +:+ b) → a = b.
Proof. intros [= H]. exact H. Qed.

Lemma verifyAuth_accepted (user : DecodedIdToken) :
  (verifyAuth w req).1 = inr user →
  ∃ tok, authorization req = Some ("Bearer " +:+ tok) ∧ tok ≠ "" ∧
         verifyIdToken w tok = Some user ∧
         verifyAuth w req = (inr user, [CallVerifyIdToken tok]).
Proof.
  destruct verifyAuth_view
    as [[_ ->]|(tok & Hh & Htok & [(u & Hv & ->)|[_ ->]])];
    try discriminate.
  intros [= <-]. now exists tok.
Qed.

Lemma verifyAuth_rejected (resp : response) :
  (verifyAuth w req).1 = inl resp → status resp = 401.
Proof.
  destruct verifyAuth_view
    as [[_ ->]|(tok & Hh & Htok & [(u & Hv & ->)|[_ ->]])];
    try discriminate; now intros [= <-].
Qed.

Lemma verifyAuth_verified (tok : string) (user : DecodedIdToken) :
  authorization req = Some ("Bearer " +:+ tok) → tok ≠ "" →
  verifyIdToken w tok = Some user →
  verifyAuth w req = (inr user, [CallVerifyIdToken tok]).
Proof.
  intros Hh Htok Hver. unfold verifyAuth. rewrite Hh.
  destruct tok as [|c tok']; [contradiction|].
  cbv -[verifyIdToken]. now rewrite Hver.
Qed.

End AuthenticationView.

(** X2.  [verifyAuth] lets a request through as [user] exactly when the
    [Authorization] header is [Bearer ] followed by a non-empty token that
    the identity provider verifies as [user].  Every other request is
    answered 401, and the provider is consulted at most once, on the text
    after [Bearer ]. *)
Theorem verifyAuth_accepts_iff (w : world) (req : request) :
  (∀ user,
     (verifyAuth w req).1 = inr user ↔
     ∃ tok, authorization req = Some ("Bearer " +:+ tok) ∧ tok ≠ "" ∧
            verifyIdToken w tok = Some user) ∧
  (∀ resp, (verifyAuth w req).1 = inl resp → status resp = 401) ∧
  ((verifyAuth w req).2 = [] ∨
   ∃ tok rest, authorization req = Some ("Bearer " +:+ tok) ∧
     (verifyAuth w req).2 = CallVerifyIdToken tok :: rest ∧
     Forall (λ e, ∃ l, e = CallConsoleError l) rest).
Proof.
  destruct (verifyAuth_view w req)
    as [[Hno Hrun]|(tok & Hh & Htok & [(u & Hv & Hrun)|[Hv Hrun]])];
    rewrite Hrun; cbn [fst snd]; (split; [|split]).
  - intros user. split; [discriminate|].
    intros (t & Ht & Hne & _). destruct Hno. now exists t.
  - now intros resp [= <-].
  - now left.
  - intros user. split.
    + intros [= <-]. now exists tok.
    + intros (t & Ht & _ & Hv'). rewrite Hh in Ht.
      apply bearer_inj in Ht as <-. congruence.
  - discriminate.
  - right. now exists tok, [].
  - intros user. split; [discriminate|].
    intros (t & Ht & _ & Hv'). rewrite Hh in Ht.
    apply bearer_inj in Ht as <-. congruence.
  - now intros resp [= <-].
  - right. exists tok, [CallConsoleError "Auth verify error:"].
    split; [assumption|]. split; [reflexivity|].
    repeat constructor. now eexists.
Qed.

Lemma verifyAuth_accepts_iff_witness :
  (verifyAuth sample_world sample_request).1 =
    inr {| user_uid := "u1"; user_email := "u1@example.org" |}.
Proof.
  apply (proj1 (verifyAuth_accepts_iff sample_world sample_request)).
  exists "token-of-u1". split; [reflexivity|].
  split; [discriminate|reflexivity].
Defined.

Section Issuance.

Variables (w : world) (req : request).

Lemma handler_response (ep : endpoint) (user : DecodedIdToken) :
  (handler ep w req user).1 =
    match bucketName w with
    | None | Some "" => json_error 500 "BUCKET_NAME env var not set"
    | Some bucket =>
        let b := default {| objectPath := JUndefined;
                            contentType := JUndefined |} (req_body req) in
        if negb (truthy (objectPath b)) ||
           match ep with
           | SignedUrl => negb (truthy (contentType b))
           | SignedUrlRead => false
           end
        then match ep with
             | SignedUrl =>
                 json_error 400 "objectPath and contentType are required"
             | SignedUrlRead => json_error 400 "objectPath is required"
             end
        else if String.eqb (user_uid user) ""
        then json_error 401 "Unauthenticated"
        else
          match isPathAllowedForRole_on (getUserRole w (user_uid user)).1
                  (user_uid user) (objectPath b) with
          | Normal true =>
              match signer_answer w ep bucket b with
              | Some url => {| status := 200; payload := JsonUrl url |}
              | None =>
                  match ep with
                  | SignedUrl => json_error 500 "Failed to create signed URL"
                  | SignedUrlRead =>
                      json_error 500 "Failed to create signed read URL"
                  end
              end
          | Normal false => denial ep
          | Throw _ =>
              match ep with
              | SignedUrl => json_error 500 "Failed to create signed URL"
              | SignedUrlRead =>
                  json_error 500 "Failed to create signed read URL"
              end
          end
    end.
Proof.
  destruct ep; unfold signer_answer, handler, signed_url, signed_url_read, denial;
    (destruct (bucketName w) as [[|c bucket]|]; [reflexivity| |reflexivity]);
    cbv zeta;
    generalize (default {| objectPath := JUndefined;
                           contentType := JUndefined |} (req_body req));
    intros b; rewrite ?orb_false_r;
    (match goal with
     | |- context [if ?c then _ else _] => destruct c
     end; [reflexivity|]);
    (destruct (String.eqb (user_uid user) ""); [reflexivity|]);
    unfold call_isPathAllowedForRole, call, mbind, mret, M_bind, M_ret;
    cbn [fst snd];
    destruct (isPathAllowedForRole_on _ _ _) as [[|]|e]; try reflexivity;
    now destruct (getSignedUrl w _ _ _ _).
Qed.


Lemma handler_calls (ep : endpoint) (user : DecodedIdToken) :
  (handler ep w req user).2 =
    match bucketName w with
    | None | Some "" => []
    | Some bucket =>
        let b := default {| objectPath := JUndefined;
                            contentType := JUndefined |} (req_body req) in
        if negb (truthy (objectPath b)) ||
           match ep with
           | SignedUrl => negb (truthy (contentType b))
           | SignedUrlRead => false
           end
        then []
        else if String.eqb (user_uid user) "" then []
        else
          let role := (getUserRole w (user_uid user)).1 in
          let result :=
            isPathAllowedForRole_on role (user_uid user) (objectPath b) in
          (getUserRole w (user_uid user)).2 ++
          CallIsPathAllowedForRole role (user_uid user) (objectPath b) result ::
          match result with
          | Normal true =>
              signer_call ep bucket b ::
              match signer_answer w ep bucket b with
              | Some _ => []
              | None => [CallConsoleError (error_label ep)]
              end
          | Normal false => []
          | Throw _ => [CallConsoleError (error_label ep)]
          end
    end.
Proof.
  destruct ep;
    unfold signer_answer, signer_call, error_label, handler, signed_url,
      signed_url_read;
    (destruct (bucketName w) as [[|c bucket]|]; [reflexivity| |reflexivity]);
    cbv zeta;
    generalize (default {| objectPath := JUndefined;
                           contentType := JUndefined |} (req_body req));
    intros b; rewrite ?orb_false_r;
    (match goal with
     | |- context [if ?c then _ else _] => destruct c
     end; [reflexivity|]);
    (destruct (String.eqb (user_uid user) ""); [reflexivity|]);
    unfold call_isPathAllowedForRole, call, mbind, mret, M_bind, M_ret;
    cbn [fst snd]; f_equal; cbn [app]; f_equal;
    destruct (isPathAllowedForRole_on _ _ _) as [[|]|e]; try reflexivity;
    now destruct (getSignedUrl w _ _ _ _).
Qed.

Lemma serve_response (ep : endpoint) :
  (serve ep w req).1 =
    match (verifyAuth w req).1 with
    | inl resp => resp
    | inr user => (handler ep w req user).1
    end.
Proof.
  assert (serve ep w req = route (handler ep) w req) as -> by now destruct ep.
  unfold route, mbind, M_bind. cbn [fst].
  now destruct (verifyAuth w req).1.
Qed.

Lemma serve_calls (ep : endpoint) :
  (serve ep w req).2 =
    (verifyAuth w req).2 ++
    match (verifyAuth w req).1 with
    | inl resp => []
    | inr user => (handler ep w req user).2
    end.
Proof.
  assert (serve ep w req = route (handler ep) w req) as -> by now destruct ep.
  unfold route, mbind, M_bind. cbn [snd].
  now destruct (verifyAuth w req).1.
Qed.

(** A 200 reply has gone through every gate of the route. *)
Lemma issued_only_if (ep : endpoint) (url : string) :
  (serve ep w req).1 = {| status := 200; payload := JsonUrl url |} →
  ∃ tok user bucket b p,
    authorization req = Some ("Bearer " +:+ tok) ∧ tok ≠ "" ∧
    verifyIdToken w tok = Some user ∧ user_uid user ≠ "" ∧
    bucketName w = Some bucket ∧ bucket ≠ "" ∧
    req_body req = Some b ∧ objectPath b = JStr p ∧ p ≠ "" ∧
    (ep = SignedUrl → truthy (contentType b) = true) ∧
    isPathAllowedForRole (getUserRole w (user_uid user)).1 (user_uid user) p
      = Normal true ∧
    signer_answer w ep bucket b = Some url.
Proof.
  rewrite serve_response.
  destruct (verifyAuth w req).1 as [resp|user] eqn:Hv.
  { intros ->. now apply verifyAuth_rejected in Hv. }
  destruct (verifyAuth_accepted w req user Hv)
    as (tok & Hh & Htok & Hver & _).
  rewrite handler_response.
  destruct (bucketName w) as [[|c bucket]|]; try discriminate.
  destruct (req_body req) as [b|]; cbn [default from_option id];
    [|now destruct ep].
  destruct (negb (truthy (objectPath b)) ||
            match ep with
            | SignedUrl => negb (truthy (contentType b))
            | SignedUrlRead => false
            end) eqn:Hcond; [now destruct ep|].
  apply orb_false_iff in Hcond as [Htr Hct].
  destruct (String.eqb_spec (user_uid user) "") as [|Hune]; [discriminate|].
  destruct (isPathAllowedForRole_on _ _ _) as [[|]|e] eqn:Hallow;
    try (now destruct ep).
  destruct (signer_answer w ep (String c bucket) b) as [u|] eqn:Hs;
    [|now destruct ep].
  intros [= ->]. unfold isPathAllowedForRole_on in Hallow.
  destruct (objectPath b) as [| | | |p|] eqn:Hp; try discriminate.
  cbn [truthy] in Htr.
  destruct (String.eqb_spec p "") as [|Hpne]; [discriminate|].
  exists tok, user, (String c bucket), b, p.
  split_and!; try first [assumption|reflexivity|discriminate].
  intros ->. now apply negb_false_iff in Hct.
Qed.

End Issuance.

(** X3.  A route answers 200 with a URL exactly when the request carries
    a token the identity provider verifies, the bucket is configured, the
    body names a non-empty string path (and, for uploads, a content type),
    [isPathAllowedForRole] is true for the caller's stored role, the
    caller's own uid and that path, and the signer returns the URL for
    that path and the route's action. *)
Theorem signed_url_issued_iff (ep : endpoint) (w : world) (req : request)
  (url : string) :
  (serve ep w req).1 = {| status := 200; payload := JsonUrl url |} ↔
  ∃ tok user bucket b p,
    authorization req = Some ("Bearer " +:+ tok) ∧ tok ≠ "" ∧
    verifyIdToken w tok = Some user ∧ user_uid user ≠ "" ∧
    bucketName w = Some bucket ∧ bucket ≠ "" ∧
    req_body req = Some b ∧ objectPath b = JStr p ∧ p ≠ "" ∧
    (ep = SignedUrl → truthy (contentType b) = true) ∧
    isPathAllowedForRole (getUserRole w (user_uid user)).1 (user_uid user) p
      = Normal true ∧
    signer_answer w ep bucket b = Some url.
Proof.
  split; [apply issued_only_if|].
  intros (tok & user & bucket & b & p & Hh & Htok & Hver & Hu & Hbk & Hbne
          & Hbody & Hp & Hpne & Hct & Hallow & Hs).
  rewrite serve_response, (verifyAuth_verified w req tok user Hh Htok Hver).
  cbn [fst].
  rewrite handler_response, Hbk. destruct bucket as [|c bucket]; [done|].
  rewrite Hbody. cbn [default from_option id]. rewrite Hp. cbn [truthy].
  destruct (String.eqb_spec p "") as [|_]; [done|]. cbn [negb orb].
  destruct (String.eqb_spec (user_uid user) "") as [|_]; [done|].
  replace (match ep with
           | SignedUrl => negb (truthy (contentType b))
           | SignedUrlRead => false
           end) with false
    by (destruct ep; [now rewrite Hct|reflexivity]).
  unfold isPathAllowedForRole_on. now rewrite Hallow, Hs.
Qed.

Lemma signed_url_issued_iff_witness :
  (serve SignedUrlRead sample_world own_request).1 =
    {| status := 200; payload := JsonUrl "https://storage.example/signed" |}.
Proof.
  apply (proj2 (signed_url_issued_iff SignedUrlRead sample_world own_request
                  "https://storage.example/signed")).
  exists "token-of-u1", {| user_uid := "u1"; user_email := "u1@example.org" |},
    "collabup-uploads",
    {| objectPath := JStr "users/mentors/u1/file.pdf";
       contentType := JStr "application/pdf" |},
    "users/mentors/u1/file.pdf".
  split; [reflexivity|]. split; [discriminate|]. split; [reflexivity|].
  split; [discriminate|]. split; [reflexivity|]. split; [discriminate|].
  split; [reflexivity|]. split; [reflexivity|]. split; [discriminate|].
  split; [discriminate|]. split; vm_compute; reflexivity.
Defined.

(** X4.  A signed URL is only ever issued to a caller for a path that
    contains the caller's own, non-empty uid, unless the caller's stored
    role is admin. *)
Theorem issued_url_contains_own_uid (ep : endpoint) (w : world)
  (req : request) (url : string) :
  (serve ep w req).1 = {| status := 200; payload := JsonUrl url |} →
  ∃ tok user b p,
    authorization req = Some ("Bearer " +:+ tok) ∧
    verifyIdToken w tok = Some user ∧
    req_body req = Some b ∧ objectPath b = JStr p ∧
    user_uid user ≠ "" ∧
    ((getUserRole w (user_uid user)).1 = "admin" ∨
     is_substring (user_uid user) p).
Proof.
  intros H. apply issued_only_if in H
    as (tok & user & bucket & b & p & Hh & _ & Hver & Hu & _ & _ & Hb & Hp
        & _ & _ & Hallow & _).
  exists tok, user, b, p. split_and!; try assumption.
  now apply isPathAllowedForRole_true in Hallow as (_ & _ & _ & ?).
Qed.

Lemma issued_url_contains_own_uid_witness :
  (serve SignedUrl sample_world own_request).1 =
    {| status := 200; payload := JsonUrl "https://storage.example/signed" |} ∧
  is_substring "u1" "users/mentors/u1/file.pdf".
Proof.
  assert ((serve SignedUrl sample_world own_request).1 =
          {| status := 200;
             payload := JsonUrl "https://storage.example/signed" |}) as H
    by (vm_compute; reflexivity).
  split; [exact H|].
  destruct (issued_url_contains_own_uid SignedUrl sample_world own_request
              _ H) as (tok & user & b & p & Hh & Hver & Hb & Hp & _ & Hsub).
  injection Hver as <-. injection Hb as <-. injection Hp as <-.
  destruct Hsub as [Hadm|Hsub]; [|exact Hsub].
  vm_compute in Hadm. discriminate.
Defined.

(** X5.  A request that carries no verifiable bearer token is answered
    401 on both routes, and the only calls it causes are the token
    verification and a log line: no document is read, the path is not
    checked, nothing is signed. *)
Theorem unauthenticated_stops_at_401 (ep : endpoint) (w : world)
  (req : request) :
  (¬ ∃ tok user, authorization req = Some ("Bearer " +:+ tok) ∧ tok ≠ "" ∧
                 verifyIdToken w tok = Some user) →
  status (serve ep w req).1 = 401 ∧
  Forall (λ e, is_auth_call e = true) (serve ep w req).2.
Proof.
  intros Hno. rewrite serve_response, serve_calls.
  destruct (verifyAuth_view w req)
    as [[_ ->]|(tok & Hh & Htok & [(u & Hv & ->)|[_ ->]])];
    cbn [fst snd app].
  - split; [reflexivity|constructor].
  - destruct Hno. now exists tok, u.
  - split; [reflexivity|repeat constructor].
Qed.

Lemma unauthenticated_stops_at_401_witness :
  (¬ ∃ tok user,
       authorization anonymous_request = Some ("Bearer " +:+ tok) ∧
       tok ≠ "" ∧ verifyIdToken sample_world tok = Some user) ∧
  status (serve SignedUrl sample_world anonymous_request).1 = 401 ∧
  (serve SignedUrl sample_world anonymous_request).2 = [].
Proof.
  assert (¬ ∃ tok user,
            authorization anonymous_request = Some ("Bearer " +:+ tok) ∧
            tok ≠ "" ∧ verifyIdToken sample_world tok = Some user) as Hno
    by (intros (tok & user & H & _); discriminate).
  split; [exact Hno|].
  split; [|vm_compute; reflexivity].
  exact (proj1 (unauthenticated_stops_at_401 SignedUrl sample_world
                  anonymous_request Hno)).
Defined.

(** X6.  When the body's [objectPath] is truthy but not a string, an
    authenticated request passes validation, the check raises a
    [TypeError], and the route answers 500 without signing. *)
Theorem non_string_path_is_500 (ep : endpoint) (w : world) (req : request)
  (tok bucket : string) (user : DecodedIdToken) (b : body) :
  authorization req = Some ("Bearer " +:+ tok) → tok ≠ "" →
  verifyIdToken w tok = Some user → user_uid user ≠ "" →
  bucketName w = Some bucket → bucket ≠ "" →
  req_body req = Some b →
  truthy (objectPath b) = true → (∀ p, objectPath b ≠ JStr p) →
  (ep = SignedUrl → truthy (contentType b) = true) →
  status (serve ep w req).1 = 500 ∧
  CallIsPathAllowedForRole (getUserRole w (user_uid user)).1 (user_uid user)
    (objectPath b) (Throw TypeError) ∈ (serve ep w req).2 ∧
  Forall (λ e, is_signing e = false) (serve ep w req).2.
Proof.
  intros Hh Htok Hver Hu Hbk Hbne Hb Htr Hns Hct.
  assert ((verifyAuth w req).1 = inr user) as Hv
    by now rewrite (verifyAuth_verified w req tok user).
  assert (isPathAllowedForRole_on (getUserRole w (user_uid user)).1
            (user_uid user) (objectPath b) = Throw TypeError) as Hthrow.
  { unfold isPathAllowedForRole_on.
    destruct (objectPath b) as [| | | |p|]; try reflexivity.
    now destruct (Hns p). }
  pose proof (getUserRole_calls w (user_uid user)) as Hrole.
  rewrite serve_response, serve_calls, Hv, handler_response, handler_calls,
    Hbk.
  destruct bucket as [|c bucket]; [done|].
  rewrite Hb. cbn [default from_option id]. rewrite Htr. cbn [negb orb].
  replace (match ep with
           | SignedUrl => negb (truthy (contentType b))
           | SignedUrlRead => false
           end) with false
    by (destruct ep; [now rewrite Hct|reflexivity]).
  destruct (String.eqb_spec (user_uid user) "") as [|_]; [done|].
  cbv zeta. rewrite Hthrow. split; [now destruct ep|]. split.
  - apply elem_of_app. right. apply elem_of_app. right.
    apply list_elem_of_here.
  - pose proof (verifyAuth_calls w req) as Hauth.
    apply Forall_app. split.
    { eapply Forall_impl; [exact Hauth|]. now intros e [? _]. }
    apply Forall_app. split.
    { eapply Forall_impl; [exact Hrole|]. now intros e [? _]. }
    repeat constructor.
Qed.

Lemma non_string_path_is_500_witness :
  status (serve SignedUrlRead sample_world numeric_path_request).1 = 500 ∧
  Forall (λ e, is_signing e = false)
    (serve SignedUrlRead sample_world numeric_path_request).2.
Proof.
  destruct (non_string_path_is_500 SignedUrlRead sample_world
              numeric_path_request "token-of-u1" "collabup-uploads"
              {| user_uid := "u1"; user_email := "u1@example.org" |}
              {| objectPath := JNum 7;
                 contentType := JStr "application/pdf" |})
    as (Hs & _ & Hn);
    try reflexivity; try discriminate.
  split; [exact Hs|exact Hn].
Defined.



Section Roots.

Lemma allowed_prefix_root (r u P : string) (prefixes : list string) :
  allowedPrefixes r u = Normal prefixes → P ∈ prefixes →
  ∃ root, root ∈ storage_roots ∧ is_prefix root P.
Proof.
  unfold allowedPrefixes, get. rewrite baseByRole_lookup.
  repeat case_decide; try destruct (inherited r);
    cbv beta iota delta [spread_or_empty]; intros [= <-] HP;
    unfold legacy in HP;
    rewrite ?elem_of_app, ?elem_of_cons, ?elem_of_nil in HP;
    repeat match goal with H : _ ∨ _ |- _ => destruct H as [H|H] end;
    subst; try contradiction;
    first
      [ exists "users/"; split; [by_evaluation|now eexists]
      | exists "projects/"; split; [by_evaluation|now eexists]
      | exists "profile-pictures/"; split; [by_evaluation|now eexists]
      | exists "id-documents/"; split; [by_evaluation|now eexists]
      | exists "enrollments/"; split; [by_evaluation|now eexists]
      | exists "project-files/"; split; [by_evaluation|now eexists] ].
Qed.

Lemma is_prefix_trans (a b c : string) :
  is_prefix a b → is_prefix b c → is_prefix a c.
Proof. intros [s ->] [t ->]. exists (s +:+ t). apply append_assoc. Qed.

End Roots.

(** X8.  Whatever the role and the uid, an allowed path lies under one of
    the six storage roots [users/], [projects/], [profile-pictures/],
    [id-documents/], [enrollments/] and [project-files/]; in particular
    the empty path is never allowed. *)
Theorem allowed_path_under_root (r u p : string) :
  isPathAllowedForRole r u p = Normal true →
  (∃ root, root ∈ storage_roots ∧ is_prefix root p) ∧ p ≠ "".
Proof.
  intros H.
  apply isPathAllowedForRole_true in H as (l & Hl & (P & HP & Hpre) & _).
  destruct (allowed_prefix_root r u P l Hl HP) as (root & Hroot & HrP).
  assert (is_prefix root p) as Hrp by now apply (is_prefix_trans root P p).
  split; [now exists root|].
  intros ->. destruct Hrp as [t Ht].
  unfold storage_roots in Hroot.
  rewrite ?elem_of_cons, ?elem_of_nil in Hroot.
  repeat match goal with H : _ ∨ _ |- _ => destruct H as [H|H] end;
    subst; try contradiction; discriminate.
Qed.

Lemma allowed_path_under_root_witness :
  isPathAllowedForRole "startup" "s3" "enrollments/s3/form.pdf" = Normal true ∧
  ∃ root, root ∈ storage_roots ∧ is_prefix root "enrollments/s3/form.pdf".
Proof.
  assert (isPathAllowedForRole "startup" "s3" "enrollments/s3/form.pdf"
          = Normal true) as H by (vm_compute; reflexivity).
  split; [exact H|].
  exact (proj1 (allowed_path_under_root "startup" "s3"
                  "enrollments/s3/form.pdf" H)).
Defined.

(** ** The project routes and the status route *)

Import Api.

Ltac effect_cases H :=
  repeat (apply elem_of_cons in H as [H|H]; simplify_eq);
  try (apply elem_of_nil in H; destruct H).

Section ApiRoutes.

Variables (s : services) (r : api_request).

Lemma strict_eq_true (v : jsval) (t : string) :
  strict_eq v t = true ↔ v = JStr t.
Proof.
  destruct v; cbn; try (split; [discriminate|intros [=]]).
  rewrite String.eqb_eq. split; [now intros ->|now intros [= ->]].
Qed.

Lemma role_gate (v : jsval) (a b : string) :
  negb (strict_eq v a) && negb (strict_eq v b) = false ↔
  v = JStr a ∨ v = JStr b.
Proof.
  rewrite <- !strict_eq_true.
  destruct (strict_eq v a), (strict_eq v b); cbn; intuition discriminate.
Qed.

Lemma protected_outcome
  (h : services → api_request → DecodedIdToken → IO outcome) :
  let auth := verifyAuth (core s)
                {| authorization := req_authorization r; req_body := None |} in
  (protected h s r).1 =
    match auth.1 with
    | inl resp => reply_of resp
    | inr user => (h s r user).1
    end ∧
  (protected h s r).2 =
    (Core <$> auth.2) ++
    match auth.1 with
    | inl resp => []
    | inr user => (h s r user).2
    end.
Proof.
  intros auth. unfold protected, lift, mbind, IO_bind. cbn [fst snd].
  fold auth. now destruct auth.1.
Qed.

(** What a handler run behind [verifyAuth] adds to the effects: if an
    effect that is no call of the signed-URL routes occurs, the token was
    verified and the handler produced it. *)
Lemma protected_effect
  (h : services → api_request → DecodedIdToken → IO outcome) (e : effect) :
  (∀ c, e ≠ Core c) →
  e ∈ (protected h s r).2 →
  ∃ tok user,
    req_authorization r = Some ("Bearer " +:+ tok) ∧ tok ≠ "" ∧
    verifyIdToken (core s) tok = Some user ∧
    (protected h s r).1 = (h s r user).1 ∧
    e ∈ (h s r user).2.
Proof.
  intros Hne Hin.
  destruct (protected_outcome h) as [Hout Heff]. cbv zeta in *.
  rewrite Hout. rewrite Heff in Hin.
  apply elem_of_app in Hin as [Hin|Hin].
  { apply list_elem_of_fmap in Hin as (c & -> & _). now destruct (Hne c). }
  destruct (verifyAuth _ _).1 as [resp|user] eqn:Hv.
  { now apply elem_of_nil in Hin. }
  destruct (verifyAuth_accepted _ _ user Hv) as (tok & Hh & Htok & Hver & _).
  now exists tok, user.
Qed.

Lemma protected_verified
  (h : services → api_request → DecodedIdToken → IO outcome)
  (tok : string) (user : DecodedIdToken) :
  req_authorization r = Some ("Bearer " +:+ tok) → tok ≠ "" →
  verifyIdToken (core s) tok = Some user →
  (protected h s r).1 = (h s r user).1 ∧
  (protected h s r).2 = Core (CallVerifyIdToken tok) :: (h s r user).2.
Proof.
  intros Hh Htok Hver.
  destruct (protected_outcome h) as [-> ->].
  now rewrite (verifyAuth_verified (core s)
                 {| authorization := req_authorization r; req_body := None |}
                 tok user Hh Htok Hver).
Qed.

(** A reply other than 401 comes from the handler, run for the user the
    token was verified as. *)
Lemma protected_reply
  (h : services → api_request → DecodedIdToken → IO outcome) (rep : reply) :
  (protected h s r).1 = Replied rep → code rep ≠ 401 →
  ∃ tok user,
    req_authorization r = Some ("Bearer " +:+ tok) ∧ tok ≠ "" ∧
    verifyIdToken (core s) tok = Some user ∧
    (h s r user).1 = Replied rep ∧
    (protected h s r).2 = Core (CallVerifyIdToken tok) :: (h s r user).2.
Proof.
  intros Hrep Hcode.
  destruct (protected_outcome h) as [Hout _]. cbv zeta in Hout.
  rewrite Hout in Hrep.
  destruct (verifyAuth _ _).1 as [resp|user] eqn:Hv.
  - injection Hrep as <-. cbn in Hcode.
    now rewrite (verifyAuth_rejected _ _ resp Hv) in Hcode.
  - destruct (verifyAuth_accepted _ _ user Hv)
      as (tok & Hh & Htok & Hver & _).
    exists tok, user. split_and!; try assumption.
    now apply protected_verified.
Qed.

End ApiRoutes.

Ltac run_io :=
  unfold perform, failed, error_reply, mbind, mret, IO_bind, IO_ret;
  cbn [fst snd app].

Section Projects.

Variables (s : services) (r : api_request) (user : DecodedIdToken).

Lemma create_project_add (k : project_kind) (c : string)
  (data : gmap string value) :
  CollectionAdd c data ∈ (create_project k s r user).2 →
  ∃ profile,
    doc_get s (JStr "users") (JStr (user_uid user)) = Some (Some profile) ∧
    (field profile "role" = JStr (project_role k) ∨
     field profile "role" = JStr "admin") ∧
    c = project_collection k ∧
    data !! owner_field k = Some (Val (JStr (user_uid user))) ∧
    data !! "createdAt" = Some ServerTimestamp ∧
    data !! "updatedAt" = Some ServerTimestamp ∧
    (∀ key, key ∉ set_by_route k → data !! key = spread_body r !! key).
Proof.
  destruct k; unfold create_project, create_research_project,
    create_startup_project, create_student_project; cbv zeta; run_io;
    (destruct (doc_get s (JStr "users") (JStr (user_uid user)))
       as [[profile|]|] eqn:Hdoc; run_io;
     [|intros Hin; effect_cases Hin..]);
    (destruct (negb _ && negb _) eqn:Hrole; run_io;
     [intros Hin; effect_cases Hin|]);
    apply role_gate in Hrole;
    repeat match goal with
           | |- context [match ?x with Normal _ => _ | Throw _ => _ end] =>
               destruct x as [?|?] eqn:?
           end;
    try match goal with
        | |- context [collection_add s ?c ?d] =>
            destruct (collection_add s c d)
        end;
    run_io; intros Hin; effect_cases Hin;
    exists profile; split_and!; try done;
    try (intros key Hkey;
         rewrite !lookup_insert_ne
           by (intros <-; apply Hkey; by_evaluation);
         reflexivity);
    cbn [owner_field]; now simplify_map_eq.
Qed.

Lemma create_project_created (k : project_kind) (obj : gmap string value) :
  (create_project k s r user).1 =
    Replied {| code := 201; content_of := CObject obj |} →
  ∃ data id,
    CollectionAdd (project_collection k) data ∈ (create_project k s r user).2 ∧
    collection_add s (project_collection k) data = Some id ∧
    obj = data ∪ {[ "id" := Val (JStr id) ]}.
Proof.
  destruct k; unfold create_project, create_research_project,
    create_startup_project, create_student_project; cbv zeta; run_io;
    (destruct (doc_get s (JStr "users") (JStr (user_uid user)))
       as [[profile|]|] eqn:Hdoc; run_io; try discriminate);
    (destruct (negb _ && negb _) eqn:Hrole; run_io; try discriminate);
    repeat match goal with
           | |- context [match ?x with Normal _ => _ | Throw _ => _ end] =>
               destruct x as [?|?] eqn:?
           end;
    run_io; try discriminate;
    match goal with
    | |- context [collection_add s ?c ?d] =>
        destruct (collection_add s c d) as [id|] eqn:Hadd
    end;
    run_io; try discriminate;
    intros [= <-]; eexists _, id;
    (split; [apply list_elem_of_further, list_elem_of_here|]);
    now split.
Qed.

Lemma create_project_refused (k : project_kind) :
  (doc_get s (JStr "users") (JStr (user_uid user)) = Some None →
   (create_project k s r user).1 = error_reply 404 "User profile not found") ∧
  (∀ profile,
     doc_get s (JStr "users") (JStr (user_uid user)) = Some (Some profile) →
     field profile "role" ≠ JStr (project_role k) →
     field profile "role" ≠ JStr "admin" →
     ∃ message, (create_project k s r user).1 = error_reply 403 message) ∧
  ((∀ profile,
      doc_get s (JStr "users") (JStr (user_uid user)) = Some (Some profile) →
      field profile "role" ≠ JStr (project_role k) ∧
      field profile "role" ≠ JStr "admin") →
   Forall (λ e, is_write e = false) (create_project k s r user).2).
Proof.
  split; [|split].
  - intros Hdoc. destruct k; unfold create_project, create_research_project,
      create_startup_project, create_student_project; cbv zeta; run_io;
      now rewrite Hdoc.
  - intros profile Hdoc Hr Ha.
    assert (negb (strict_eq (field profile "role") (project_role k)) &&
            negb (strict_eq (field profile "role") "admin") = true) as Hgate.
    { destruct (_ && _) eqn:Hg; [reflexivity|].
      apply role_gate in Hg as [?|?]; contradiction. }
    destruct k; unfold create_project, create_research_project,
      create_startup_project, create_student_project; cbv zeta; run_io;
      rewrite Hdoc; cbn [project_role] in Hgate; rewrite Hgate;
      now eexists.
  - intros Hno. apply Forall_forall. intros e He.
    destruct e; try reflexivity.
    + apply create_project_add in He as (profile & Hdoc & [Hr|Hr] & _);
        destruct (Hno profile Hdoc); contradiction.
    + exfalso. revert He.
      destruct k; unfold create_project, create_research_project,
        create_startup_project, create_student_project; cbv zeta; run_io;
        (destruct (doc_get s (JStr "users") (JStr (user_uid user)))
           as [[profile|]|]; run_io;
         [|intros Hin; effect_cases Hin..]);
        (destruct (negb _ && negb _); run_io;
         [intros Hin; effect_cases Hin|]);
        repeat match goal with
               | |- context [match ?x with Normal _ => _ | Throw _ => _ end] =>
                   destruct x as [?|?] eqn:?
               end;
        try match goal with
            | |- context [collection_add s ?c ?d] =>
                destruct (collection_add s c d)
            end;
        run_io; intros Hin; effect_cases Hin.
Qed.

End Projects.

(** X9.  Whatever the body of the request says, a project route writes
    only for a caller whose token is verified and whose profile has the
    route's role or admin; it writes into the route's own collection; the
    owner field of the new document is the uid of the token; both time
    stamps are the server's; and every other field the route does not set
    itself is the body's. *)
Theorem project_write_is_owned (k : project_kind) (s : services)
  (r : api_request) (c : string) (data : gmap string value) :
  CollectionAdd c data ∈ (post_project k s r).2 →
  ∃ tok user profile,
    req_authorization r = Some ("Bearer " +:+ tok) ∧
    verifyIdToken (core s) tok = Some user ∧
    doc_get s (JStr "users") (JStr (user_uid user)) = Some (Some profile) ∧
    (field profile "role" = JStr (project_role k) ∨
     field profile "role" = JStr "admin") ∧
    c = project_collection k ∧
    data !! owner_field k = Some (Val (JStr (user_uid user))) ∧
    data !! "createdAt" = Some ServerTimestamp ∧
    data !! "updatedAt" = Some ServerTimestamp ∧
    (∀ key, key ∉ set_by_route k → data !! key = spread_body r !! key).
Proof.
  intros Hin. apply protected_effect in Hin
    as (tok & user & Hh & _ & Hver & _ & Hin); [|discriminate].
  apply create_project_add in Hin as (profile & ?).
  exists tok, user, profile. tauto.
Qed.

Lemma project_write_is_owned_witness :
  (∃ data, CollectionAdd "researchProjects" data
           ∈ (post_project Research sample_services sample_project_request).2) ∧
  ∀ data, CollectionAdd "researchProjects" data
          ∈ (post_project Research sample_services sample_project_request).2 →
          data !! "facultyId" = Some (Val (JStr "f1")) ∧
          data !! "title" = Some (Val (JStr "Sensors")).
Proof.
  split.
  - eexists. unfold post_project.
    rewrite (proj2 (protected_verified sample_services sample_project_request
                      (create_project Research) "token-of-f1"
                      {| user_uid := "f1"; user_email := "f1@example.org" |}
                      eq_refl ltac:(discriminate) eq_refl)).
    do 2 apply list_elem_of_further. apply list_elem_of_here.
  - intros data Hin.
    destruct (project_write_is_owned Research sample_services
                sample_project_request _ data Hin)
      as (tok & user & profile & _ & Hver & _ & _ & _ & Hown & _ & _ & Hrest).
    injection Hver as <-. split; [exact Hown|].
    rewrite (Hrest "title") by by_evaluation. reflexivity.
Defined.

(** X10.  A project route answers 201 only after it has added a document
    to its collection for a verified caller, and the object it returns is
    the stored data together with an [id]: the id of the new document,
    unless the request body has an [id] field of its own, which is then
    returned instead. *)
Theorem project_created_reply (k : project_kind) (s : services)
  (r : api_request) (obj : gmap string value) :
  (post_project k s r).1 =
    Replied {| code := 201; content_of := CObject obj |} →
  ∃ tok user data id,
    req_authorization r = Some ("Bearer " +:+ tok) ∧
    verifyIdToken (core s) tok = Some user ∧
    CollectionAdd (project_collection k) data ∈ (post_project k s r).2 ∧
    collection_add s (project_collection k) data = Some id ∧
    (∀ key, key ≠ "id" → obj !! key = data !! key) ∧
    obj !! "id" = Some (default (Val (JStr id)) (spread_body r !! "id")).
Proof.
  intros Hrep. unfold post_project in *.
  apply protected_reply in Hrep
    as (tok & user & Hh & Htok & Hver & Hrep & Heff); [|cbn; discriminate].
  apply create_project_created in Hrep as (data & id & Hin & Hadd & ->).
  exists tok, user, data, id. split_and!; try assumption.
  - rewrite Heff. now apply list_elem_of_further.
  - intros key Hkey. rewrite lookup_union, lookup_singleton_ne by done.
    now destruct (data !! key).
  - apply create_project_add in Hin as (profile & _ & _ & _ & _ & _ & _ & Hrest).
    rewrite lookup_union, lookup_singleton_eq, Hrest
      by (destruct k; by_evaluation).
    now destruct (spread_body r !! "id").
Qed.

Lemma project_created_reply_witness :
  ∃ obj,
    (post_project Research sample_services sample_project_request).1 =
      Replied {| code := 201; content_of := CObject obj |} ∧
    obj !! "id" = Some (Val (JStr "chosen-by-caller")).
Proof.
  destruct (post_project Research sample_services sample_project_request).1
    as [[c [m|m|obj]]|e] eqn:Hrep; try (vm_compute in Hrep; discriminate).
  assert (c = 201) as -> by (vm_compute in Hrep; congruence).
  exists obj. split; [reflexivity|].
  destruct (project_created_reply Research sample_services
              sample_project_request obj Hrep)
    as (tok & user & data & id & _ & _ & _ & _ & _ & Hid).
  rewrite Hid. reflexivity.
Defined.

(** X11.  On a project route, a verified caller without a profile is
    answered 404 and one whose profile's [role] field is neither the
    route's role nor admin (a missing field included) is answered 403;
    in both cases nothing is written. *)
Theorem project_refused (k : project_kind) (s : services) (r : api_request)
  (tok : string) (user : DecodedIdToken) :
  req_authorization r = Some ("Bearer " +:+ tok) → tok ≠ "" →
  verifyIdToken (core s) tok = Some user →
  (∀ profile,
     doc_get s (JStr "users") (JStr (user_uid user)) = Some (Some profile) →
     field profile "role" ≠ JStr (project_role k) ∧
     field profile "role" ≠ JStr "admin") →
  (doc_get s (JStr "users") (JStr (user_uid user)) = Some None →
   (post_project k s r).1 = error_reply 404 "User profile not found") ∧
  (∀ profile,
     doc_get s (JStr "users") (JStr (user_uid user)) = Some (Some profile) →
     ∃ message, (post_project k s r).1 = error_reply 403 message) ∧
  Forall (λ e, is_write e = false) (post_project k s r).2.
Proof.
  intros Hh Htok Hver Hrole. unfold post_project.
  destruct (protected_verified s r (create_project k) tok user Hh Htok Hver)
    as [-> ->].
  destruct (create_project_refused s r user k) as (H404 & H403 & Hnow).
  split; [exact H404|]. split.
  - intros profile Hdoc. destruct (Hrole profile Hdoc) as [Ha Hb].
    exact (H403 profile Hdoc Ha Hb).
  - constructor; [reflexivity|]. now apply Hnow.
Qed.

Lemma project_refused_witness :
  (∃ message,
     (post_project Student sample_services sample_student_request).1 =
       error_reply 403 message) ∧
  Forall (λ e, is_write e = false)
    (post_project Student sample_services sample_student_request).2.
Proof.
  destruct (project_refused Student sample_services sample_student_request
              "token-of-f1"
              {| user_uid := "f1"; user_email := "f1@example.org" |}
              eq_refl ltac:(discriminate) eq_refl)
    as (_ & H403 & Hnow).
  - intros profile [= <-]. split; vm_compute; discriminate.
  - split; [exact (H403 sample_profile eq_refl)|exact Hnow].
Defined.

Section StatusUpdate.

Variables (s : services) (r : api_request) (user : DecodedIdToken).

Lemma owner_gate (doc : gmap string jsval) (uid : string) :
  negb (strict_eq (field doc "facultyId") uid) &&
  negb (strict_eq (field doc "mentorId") uid) &&
  negb (strict_eq (field doc "startupId") uid) = false ↔
  field doc "facultyId" = JStr uid ∨ field doc "mentorId" = JStr uid ∨
  field doc "startupId" = JStr uid.
Proof.
  rewrite <- !strict_eq_true.
  destruct (strict_eq _ uid), (strict_eq _ uid), (strict_eq _ uid); cbn;
    intuition discriminate.
Qed.

(** The paths through the handler, taken one decision at a time. *)
Ltac run_update :=
  unfold update_request_status; cbv zeta;
  destruct (req_json r) as [b|] eqn:Hbody; run_io;
  [ destruct (negb (truthy (field b "requestId")) ||
              negb (truthy (field b "collectionName")) ||
              negb (truthy (field b "status"))) eqn:Hvalid; run_io;
    [ | destruct (doc_get s (field b "collectionName") (field b "requestId"))
          as [[doc|]|] eqn:Hdoc; run_io;
        [ destruct (negb (strict_eq (field doc "facultyId") (user_uid user)) &&
                    negb (strict_eq (field doc "mentorId") (user_uid user)) &&
                    negb (strict_eq (field doc "startupId") (user_uid user)))
            eqn:Hown; run_io;
          [ | destruct (doc_update s _ _ _) eqn:Hupd; run_io;
              [ destruct (truthy (field b "studentEmail")) eqn:Hmail; run_io;
                [ destruct (sendMail s _) eqn:Hsent; run_io | ]
              | ] ]
        | | ] ]
  | ].

Lemma update_status_write (c id : jsval) (data : gmap string value) :
  DocUpdate c id data ∈ (update_request_status s r user).2 →
  ∃ b doc,
    req_json r = Some b ∧
    c = field b "collectionName" ∧ id = field b "requestId" ∧
    truthy (field b "status") = true ∧
    doc_get s c id = Some (Some doc) ∧
    (field doc "facultyId" = JStr (user_uid user) ∨
     field doc "mentorId" = JStr (user_uid user) ∨
     field doc "startupId" = JStr (user_uid user)) ∧
    data = <[ "updatedAt" := ServerTimestamp ]>
             (<[ "status" := Val (field b "status") ]> ∅).
Proof.
  run_update; intros Hin; effect_cases Hin;
    exists b, doc; apply owner_gate in Hown;
    apply orb_false_iff in Hvalid as [_ Hst];
    apply negb_false_iff in Hst; now split_and!.
Qed.

Lemma update_status_mail (m : mail) :
  SendMail m ∈ (update_request_status s r user).2 →
  ∃ b c id data,
    req_json r = Some b ∧
    mail_to m = field b "studentEmail" ∧
    truthy (field b "studentEmail") = true ∧
    DocUpdate c id data ∈ (update_request_status s r user).2 ∧
    doc_update s c id data = true ∧
    (sendMail s m = false →
     (update_request_status s r user).1 =
       error_reply 500 "Failed to update request").
Proof.
  run_update; intros Hin; effect_cases Hin;
    eexists b, _, _, _;
    (split_and!;
     [ reflexivity | reflexivity | assumption
     | apply list_elem_of_further, list_elem_of_here
     | exact Hupd
     | first [reflexivity | intros Hf; rewrite Hf in Hsent; discriminate] ]).
Qed.

Lemma update_status_done (message : string) :
  (update_request_status s r user).1 =
    Replied {| code := 200; content_of := CSuccess message |} →
  ∃ b c id data,
    req_json r = Some b ∧
    message = "Request " +:+ toString (field b "status") +:+
              " and notification sent." ∧
    DocUpdate c id data ∈ (update_request_status s r user).2 ∧
    doc_update s c id data = true ∧
    (truthy (field b "studentEmail") = false →
     Forall (λ e, is_mail e = false) (update_request_status s r user).2).
Proof.
  run_update; try discriminate; intros [= <-];
    eexists b, _, _, _;
    (split_and!;
     [ reflexivity | reflexivity
     | apply list_elem_of_further, list_elem_of_here
     | exact Hupd
     | first [ intros Hf; rewrite Hf in Hmail; discriminate
             | intros _; repeat constructor ] ]).
Qed.

End StatusUpdate.

(** X12.  The status route updates a document only for a verified caller
    whose uid is the [facultyId], [mentorId] or [startupId] of that very
    document, the one the body names; and it writes two fields only, the
    body's [status] and the server's time stamp. *)
Theorem status_update_is_owned (s : services) (r : api_request)
  (c id : jsval) (data : gmap string value) :
  DocUpdate c id data ∈ (post_update_status s r).2 →
  ∃ tok user b doc,
    req_authorization r = Some ("Bearer " +:+ tok) ∧
    verifyIdToken (core s) tok = Some user ∧
    req_json r = Some b ∧
    c = field b "collectionName" ∧ id = field b "requestId" ∧
    doc_get s c id = Some (Some doc) ∧
    (field doc "facultyId" = JStr (user_uid user) ∨
     field doc "mentorId" = JStr (user_uid user) ∨
     field doc "startupId" = JStr (user_uid user)) ∧
    data = <[ "updatedAt" := ServerTimestamp ]>
             (<[ "status" := Val (field b "status") ]> ∅).
Proof.
  intros Hin. apply protected_effect in Hin
    as (tok & user & Hh & _ & Hver & _ & Hin); [|discriminate].
  apply update_status_write in Hin
    as (b & doc & Hb & -> & -> & _ & Hdoc & Hown & ->).
  now exists tok, user, b, doc.
Qed.

Lemma status_update_is_owned_witness :
  ∃ data,
    DocUpdate (JStr "collabRequests") (JStr "r1") data
    ∈ (post_update_status sample_services sample_status_request).2 ∧
    data !! "status" = Some (Val (JStr "accepted")) ∧
    dom data = {[ "status"; "updatedAt" ]}.
Proof.
  assert (∃ data,
            DocUpdate (JStr "collabRequests") (JStr "r1") data
            ∈ (post_update_status sample_services sample_status_request).2)
    as [data Hin].
  { eexists. unfold post_update_status.
    rewrite (proj2 (protected_verified sample_services sample_status_request
                      update_request_status "token-of-f1"
                      {| user_uid := "f1"; user_email := "f1@example.org" |}
                      eq_refl ltac:(discriminate) eq_refl)).
    do 2 apply list_elem_of_further. apply list_elem_of_here. }
  exists data. split; [exact Hin|].
  destruct (status_update_is_owned sample_services sample_status_request
              _ _ data Hin)
    as (tok & user & b & doc & _ & _ & Hb & _ & _ & _ & _ & ->).
  injection Hb as <-. split; [reflexivity|].
  rewrite !dom_insert_L, dom_empty_L. set_solver.
Defined.

(** X13.  The status route sends mail only after the update has been
    applied, and only to the body's [studentEmail].  When the transport
    then fails, the caller is answered 500 although the document has
    been updated. *)
Theorem status_mail_follows_update (s : services) (r : api_request)
  (m : mail) :
  SendMail m ∈ (post_update_status s r).2 →
  ∃ b c id data,
    req_json r = Some b ∧
    mail_to m = field b "studentEmail" ∧
    DocUpdate c id data ∈ (post_update_status s r).2 ∧
    doc_update s c id data = true ∧
    (sendMail s m = false →
     (post_update_status s r).1 =
       error_reply 500 "Failed to update request").
Proof.
  intros Hin. unfold post_update_status in *.
  apply protected_effect in Hin
    as (tok & user & Hh & Htok & Hver & Hout & Hin); [|discriminate].
  apply update_status_mail in Hin
    as (b & c & id & data & Hb & Hto & _ & Hupd & Hok & Hfail).
  exists b, c, id, data. split_and!; try assumption.
  - rewrite (proj2 (protected_verified s r _ tok user Hh Htok Hver)).
    now apply list_elem_of_further.
  - intros Hf. now rewrite Hout, Hfail.
Qed.

Lemma status_mail_follows_update_witness :
  ∃ m data,
    SendMail m ∈ (post_update_status sample_services sample_status_request).2 ∧
    mail_to m = JStr "student@example.org" ∧
    DocUpdate (JStr "collabRequests") (JStr "r1") data
    ∈ (post_update_status sample_services sample_status_request).2 ∧
    (post_update_status sample_services sample_status_request).1 =
      error_reply 500 "Failed to update request".
Proof.
  assert (∃ m, SendMail m
               ∈ (post_update_status sample_services sample_status_request).2)
    as [m Hin].
  { eexists. unfold post_update_status.
    rewrite (proj2 (protected_verified sample_services sample_status_request
                      update_request_status "token-of-f1"
                      {| user_uid := "f1"; user_email := "f1@example.org" |}
                      eq_refl ltac:(discriminate) eq_refl)).
    do 3 apply list_elem_of_further. apply list_elem_of_here. }
  destruct (status_mail_follows_update sample_services sample_status_request
              m Hin)
    as (b & c & id & data & Hb & Hto & Hupd & _ & Hfail).
  exists m, data. injection Hb as <-.
  split; [exact Hin|]. split; [exact Hto|].
  split; [|now apply Hfail].
  revert Hupd. unfold post_update_status.
  rewrite (proj2 (protected_verified sample_services sample_status_request
                    update_request_status "token-of-f1"
                    {| user_uid := "f1"; user_email := "f1@example.org" |}
                    eq_refl ltac:(discriminate) eq_refl)).
  intros Hupd. apply elem_of_cons in Hupd as [Hupd|Hupd]; [discriminate|].
  apply (update_status_write sample_services sample_status_request) in Hupd
    as Hown.
  destruct Hown as (b' & _ & Hb' & -> & -> & _).
  injection Hb' as <-. now apply list_elem_of_further.
Defined.

(** X14.  The status route answers 200 only after the update has been
    applied, and its message always says that a notification was sent,
    also when the body has no [studentEmail] and no mail was sent. *)
Theorem status_done_message (s : services) (r : api_request)
  (message : string) :
  (post_update_status s r).1 =
    Replied {| code := 200; content_of := CSuccess message |} →
  ∃ b c id data,
    req_json r = Some b ∧
    message = "Request " +:+ toString (field b "status") +:+
              " and notification sent." ∧
    DocUpdate c id data ∈ (post_update_status s r).2 ∧
    doc_update s c id data = true ∧
    (truthy (field b "studentEmail") = false →
     Forall (λ e, is_mail e = false) (post_update_status s r).2).
Proof.
  intros Hrep. unfold post_update_status in *.
  apply protected_reply in Hrep
    as (tok & user & Hh & Htok & Hver & Hrep & Heff); [|cbn; discriminate].
  apply update_status_done in Hrep
    as (b & c & id & data & Hb & Hmsg & Hupd & Hok & Hquiet).
  exists b, c, id, data. rewrite Heff. split_and!; try assumption.
  - now apply list_elem_of_further.
  - intros Hf. constructor; [reflexivity|]. now apply Hquiet.
Qed.

Lemma status_done_message_witness :
  (post_update_status sample_services quiet_status_request).1 =
    Replied {| code := 200;
               content_of :=
                 CSuccess "Request rejected and notification sent." |} ∧
  Forall (λ e, is_mail e = false)
    (post_update_status sample_services quiet_status_request).2.
Proof.
  assert ((post_update_status sample_services quiet_status_request).1 =
          Replied {| code := 200;
                     content_of :=
                       CSuccess "Request rejected and notification sent." |})
    as Hrep by (vm_compute; reflexivity).
  split; [exact Hrep|].
  destruct (status_done_message sample_services quiet_status_request _ Hrep)
    as (b & c & id & data & Hb & _ & _ & _ & Hquiet).
  injection Hb as <-. apply Hquiet. reflexivity.
Defined.

(** ** The two mail routes *)

Import Mailer.

Ltac run_mail :=
  unfold mail_failed, mail_sent, emit, error_reply, mbind, mret, W_bind, W_ret;
  cbn [fst snd app].

Section Mail.

Variable k : mailer.

Lemma all_present (a b c : option body_value) :
  negb (present a) || negb (present b) || negb (present c) = false ↔
  present a && present b && present c = true.
Proof. destruct (present a), (present b), (present c); cbn; intuition. Qed.

Lemma template_cases (v : option body_value) :
  template v = Throw TypeError ∨ ∃ t, template v = Normal t.
Proof.
  destruct v as [[| | | |[t|]]|]; cbn; eauto.
Qed.

(** The options of the feedback message exist exactly when the three
    conversions succeed. *)
Lemma feedback_options_cases (name email message : option body_value) :
  ((template name = Throw TypeError ∨ template email = Throw TypeError ∨
    template message = Throw TypeError) ∧
   feedback_options k name email message = Throw TypeError) ∨
  ∃ n e t,
    template name = Normal n ∧ template email = Normal e ∧
    template message = Normal t ∧
    feedback_options k name email message =
      Normal
        {| msg_from := dquote +:+ n +:+ dquote +:+ " <" +:+ e +:+ ">";
           msg_to := BString <$> env_MAIL_RECEIVER k;
           msg_subject := Some (BString ("New Feedback from " +:+ n));
           msg_text :=
             Some (BString
                     (newline +:+ "You have received a new feedback:" +:+
                      newline +:+ newline +:+
                      "Name: " +:+ n +:+ newline +:+
                      "Email: " +:+ e +:+ newline +:+
                      "Message: " +:+ t +:+ newline +:+
                      "      "));
           msg_html := None |}.
Proof.
  unfold feedback_options.
  destruct (template_cases name) as [->|[n ->]]; [left; split; auto|].
  destruct (template_cases email) as [->|[e ->]]; [left; split; auto|].
  destruct (template_cases message) as [->|[t ->]]; [left; split; auto|].
  right. now exists n, e, t.
Qed.

Lemma send_feedback_run (b : gmap string body_value) :
  send_feedback k (Some b) =
    if negb (present (b !! "name") && present (b !! "email") &&
             present (b !! "message"))
    then (error_reply 400 "All fields are required.", [])
    else
      match feedback_options k (b !! "name") (b !! "email") (b !! "message")
      with
      | Throw _ =>
          (error_reply 500 "Failed to send email", [MailError "Mail error:"])
      | Normal m =>
          (if transport k m then mail_sent
           else error_reply 500 "Failed to send email",
           Transport m ::
           (if transport k m then [] else [MailError "Mail error:"]))
      end.
Proof.
  unfold send_feedback. cbv zeta.
  destruct (negb (present (b !! "name")) || negb (present (b !! "email")) ||
            negb (present (b !! "message"))) eqn:Hv.
  - destruct (present (b !! "name") && present (b !! "email") &&
              present (b !! "message")) eqn:Hc; [|reflexivity].
    apply all_present in Hc. congruence.
  - apply all_present in Hv as ->. cbn [negb].
    destruct (feedback_options k _ _ _) as [m|e]; run_mail; [|reflexivity].
    now destruct (transport k m).
Qed.

Lemma send_email_run (b : gmap string body_value) :
  send_email k (Some b) =
    if negb (present (b !! "to") && present (b !! "subject") &&
             present (b !! "text"))
    then (error_reply 400 "To, subject, and text are required.",
          [Debug "DEBUG: /api/send-email req.body:"])
    else
      match email_options k (b !! "to") (b !! "subject") (b !! "text")
              (b !! "html") with
      | Throw _ =>
          (error_reply 500 "Failed to send email",
           [Debug "DEBUG: /api/send-email req.body:";
            MailError "Mail error:"])
      | Normal m =>
          (if transport k m then mail_sent
           else error_reply 500 "Failed to send email",
           Debug "DEBUG: /api/send-email req.body:" :: Transport m ::
           (if transport k m then [] else [MailError "Mail error:"]))
      end.
Proof.
  unfold send_email. cbv zeta. run_mail.
  destruct (negb (present (b !! "to")) || negb (present (b !! "subject")) ||
            negb (present (b !! "text"))) eqn:Hv.
  - destruct (present (b !! "to") && present (b !! "subject") &&
              present (b !! "text")) eqn:Hc; [|reflexivity].
    apply all_present in Hc. congruence.
  - apply all_present in Hv as ->. cbn [negb].
    destruct (email_options k _ _ _ _) as [m|e]; run_mail; [|reflexivity].
    now destruct (transport k m).
Qed.

End Mail.

(** X15.  The feedback route hands a message to the transport exactly
    when the body has a truthy [name], [email] and [message] and each of
    them converts to a string.  That message goes to [MAIL_RECEIVER] and
    to no address the caller chose, and the reply is 200 if the
    transport accepts it and 500 if not.  With a field missing the reply
    is 400; with a field that cannot be converted (an object with a
    [toString] key of its own) the reply is 500; in both cases nothing
    is sent. *)
Theorem feedback_goes_to_receiver (k : mailer) (b : gmap string body_value) :
  let name := b !! "name" in
  let email := b !! "email" in
  let message := b !! "message" in
  let complete := present name && present email && present message in
  (complete = false →
   send_feedback k (Some b) =
     (error_reply 400 "All fields are required.", [])) ∧
  (complete = true →
   template name = Throw TypeError ∨ template email = Throw TypeError ∨
   template message = Throw TypeError →
   send_feedback k (Some b) =
     (error_reply 500 "Failed to send email", [MailError "Mail error:"])) ∧
  (complete = true →
   ∀ n e t,
     template name = Normal n → template email = Normal e →
     template message = Normal t →
     ∃ m,
       msg_to m = BString <$> env_MAIL_RECEIVER k ∧
       msg_from m = dquote +:+ n +:+ dquote +:+ " <" +:+ e +:+ ">" ∧
       msg_subject m = Some (BString ("New Feedback from " +:+ n)) ∧
       (send_feedback k (Some b)).2 =
         Transport m ::
         (if transport k m then [] else [MailError "Mail error:"]) ∧
       (send_feedback k (Some b)).1 =
         if transport k m then mail_sent
         else error_reply 500 "Failed to send email") ∧
  (∀ m, Transport m ∈ (send_feedback k (Some b)).2 →
        complete = true ∧ msg_to m = BString <$> env_MAIL_RECEIVER k).
Proof.
  intros name email message complete. subst name email message complete.
  rewrite send_feedback_run.
  destruct (present (b !! "name") && present (b !! "email") &&
            present (b !! "message")); cbn [negb].
  2: { split; [reflexivity|]. split; [discriminate|]. split; [discriminate|].
       intros m Hin. now apply elem_of_nil in Hin. }
  split; [discriminate|].
  destruct (feedback_options_cases k (b !! "name") (b !! "email")
              (b !! "message"))
    as [[Hthrow ->]|(n & e & t & Hn & He & Ht & ->)]; cbn [fst snd].
  - split; [reflexivity|]. split.
    + intros _ n e t Hn He Ht. destruct Hthrow as [H|[H|H]]; congruence.
    + intros m Hin. apply elem_of_cons in Hin as [Hin|Hin]; [discriminate|].
      now apply elem_of_nil in Hin.
  - split; [intros _ [H|[H|H]]; congruence|]. split.
    + intros _ n' e' t' Hn' He' Ht'.
      assert (n' = n) as -> by congruence.
      assert (e' = e) as -> by congruence.
      match goal with |- context [Transport ?m] => exists m end.
      split_and!; reflexivity.
    + intros m Hin. split; [reflexivity|].
      apply elem_of_cons in Hin as [[= ->]|Hin]; [reflexivity|].
      destruct (transport k _); [now apply elem_of_nil in Hin|].
      apply elem_of_cons in Hin as [Hin|Hin]; [discriminate|].
      now apply elem_of_nil in Hin.
Qed.

Lemma feedback_goes_to_receiver_witness :
  (∃ m, msg_to m = Some (BString "team@example.org") ∧
        Transport m ∈ (send_feedback sample_mailer (Some feedback_body)).2) ∧
  send_feedback sample_mailer (Some unprintable_feedback_body) =
    (error_reply 500 "Failed to send email", [MailError "Mail error:"]).
Proof.
  split.
  - destruct (feedback_goes_to_receiver sample_mailer feedback_body)
      as (_ & _ & H & _).
    destruct (H eq_refl "Bo" "bo@example.org" "hello" eq_refl eq_refl eq_refl)
      as (m & Hto & _ & _ & Heff & _).
    exists m. split; [exact Hto|]. rewrite Heff. apply list_elem_of_here.
  - destruct (feedback_goes_to_receiver sample_mailer
                unprintable_feedback_body) as (_ & H & _).
    apply H; [reflexivity|]. left. reflexivity.
Defined.

(** X16.  The mail route hands a message to the transport exactly when
    the body has a truthy [to], [subject] and [text] and, should [html]
    be falsy, [text] converts to a string.  The message carries the
    caller's [to], [subject] and [text], and [<p>text</p>] as HTML when
    the body gives none; the reply is 200 if the transport accepts it
    and 500 if not.  With a field missing the reply is 400; with no
    [html] and a [text] that cannot be converted the reply is 500; in
    both cases nothing is sent. *)
Theorem send_email_relays (k : mailer) (b : gmap string body_value) :
  let to := b !! "to" in
  let subject := b !! "subject" in
  let text := b !! "text" in
  let html := b !! "html" in
  let complete := present to && present subject && present text in
  (complete = false →
   send_email k (Some b) =
     (error_reply 400 "To, subject, and text are required.",
      [ Debug "DEBUG: /api/send-email req.body:" ])) ∧
  (complete = true → present html = false → template text = Throw TypeError →
   send_email k (Some b) =
     (error_reply 500 "Failed to send email",
      [ Debug "DEBUG: /api/send-email req.body:"; MailError "Mail error:" ])) ∧
  (complete = true →
   present html = true ∨ (∃ t, template text = Normal t) →
   ∃ m,
     msg_to m = to ∧ msg_subject m = subject ∧ msg_text m = text ∧
     msg_from m = "CollabUp <" +:+ env_text (env_MAIL_USER k) +:+ ">" ∧
     (present html = true → msg_html m = html) ∧
     (present html = false →
      ∃ t, template text = Normal t ∧
           msg_html m = Some (BString ("<p>" +:+ t +:+ "</p>"))) ∧
     (send_email k (Some b)).2 =
       Debug "DEBUG: /api/send-email req.body:" :: Transport m ::
       (if transport k m then [] else [MailError "Mail error:"]) ∧
     (send_email k (Some b)).1 =
       if transport k m then mail_sent
       else error_reply 500 "Failed to send email") ∧
  (∀ m, Transport m ∈ (send_email k (Some b)).2 →
        complete = true ∧ msg_to m = to).
Proof.
  intros to subject text html complete. subst to subject text html complete.
  rewrite send_email_run.
  destruct (present (b !! "to") && present (b !! "subject") &&
            present (b !! "text")); cbn [negb].
  2: { split; [reflexivity|]. split; [discriminate|]. split; [discriminate|].
       intros m Hin. apply elem_of_cons in Hin as [Hin|Hin]; [discriminate|].
       now apply elem_of_nil in Hin. }
  split; [discriminate|]. unfold email_options. cbv zeta.
  destruct (present (b !! "html")) eqn:Hhtml.
  - cbn [fst snd]. split; [discriminate|]. split.
    + intros _ _.
      match goal with |- context [Transport ?m] => exists m end.
      split_and!; try reflexivity. discriminate.
    + intros m Hin. split; [reflexivity|].
      apply elem_of_cons in Hin as [Hin|Hin]; [discriminate|].
      apply elem_of_cons in Hin as [[= ->]|Hin]; [reflexivity|].
      destruct (transport k _); [now apply elem_of_nil in Hin|].
      apply elem_of_cons in Hin as [Hin|Hin]; [discriminate|].
      now apply elem_of_nil in Hin.
  - destruct (template_cases (b !! "text")) as [->|[t ->]]; cbn [fst snd].
    + split; [reflexivity|]. split.
      * intros _ [H|[t H]]; discriminate.
      * intros m Hin.
        apply elem_of_cons in Hin as [Hin|Hin]; [discriminate|].
        apply elem_of_cons in Hin as [Hin|Hin]; [discriminate|].
        now apply elem_of_nil in Hin.
    + split; [discriminate|]. split.
      * intros _ _.
        match goal with |- context [Transport ?m] => exists m end.
        split_and!; try reflexivity; [discriminate|].
        intros _. now exists t.
      * intros m Hin. split; [reflexivity|].
        apply elem_of_cons in Hin as [Hin|Hin]; [discriminate|].
        apply elem_of_cons in Hin as [[= ->]|Hin]; [reflexivity|].
        destruct (transport k _); [now apply elem_of_nil in Hin|].
        apply elem_of_cons in Hin as [Hin|Hin]; [discriminate|].
        now apply elem_of_nil in Hin.
Qed.

Lemma send_email_relays_witness :
  (∃ m, msg_to m = Some (BString "anyone@example.org") ∧
        msg_html m = Some (BString "<p>plain</p>") ∧
        Transport m ∈ (send_email sample_mailer (Some email_body)).2) ∧
  send_email sample_mailer (Some unprintable_email_body) =
    (error_reply 500 "Failed to send email",
     [ Debug "DEBUG: /api/send-email req.body:"; MailError "Mail error:" ]).
Proof.
  split.
  - destruct (send_email_relays sample_mailer email_body) as (_ & _ & H & _).
    destruct (H eq_refl (or_intror (ex_intro _ "plain" eq_refl)))
      as (m & Hto & _ & _ & _ & _ & Hhtml & Heff & _).
    destruct (Hhtml eq_refl) as (t & Ht & Hm). injection Ht as <-.
    exists m. split; [exact Hto|]. split; [exact Hm|].
    rewrite Heff. apply list_elem_of_further, list_elem_of_here.
  - destruct (send_email_relays sample_mailer unprintable_email_body)
      as (_ & H & _).
    apply H; reflexivity.
Defined.


(** ** The CORS origin check *)

Import Cors.

Section CorsLemmas.

Lemma allowed_iff_member (e : environment) (o : string) :
  o ≠ "" →
  origin_check e (Some o) = Allow ↔ normalize o ∈ cleanedAllowedOrigins e.
Proof.
  intros Ho. unfold origin_check. destruct o as [|c o]; [contradiction|].
  cbv zeta.
  destruct (existsb _ _) eqn:Hex.
  - split; [intros _|reflexivity].
    apply existsb_exists in Hex as (x & Hx & Heq).
    apply String.eqb_eq in Heq as ->. now apply list_elem_of_In.
  - split; [discriminate|]. intros Hin. exfalso.
    apply list_elem_of_In in Hin.
    assert (existsb (String.eqb (normalize (String c o)))
              (cleanedAllowedOrigins e) = true) as Hex'.
    { apply existsb_exists. eexists. split; [exact Hin|].
      apply String.eqb_refl. }
    congruence.
Qed.

Lemma listed_normal (o : string) :
  o ∈ listed_origins →
  o ≠ "" ∧ normalize o = o ∧ normalize (o +:+ "/") = o.
Proof.
  unfold listed_origins. intros H.
  rewrite ?elem_of_cons, ?elem_of_nil in H.
  repeat match goal with H : _ ∨ _ |- _ => destruct H as [H|H] end;
    subst; try contradiction; (split; [discriminate|]);
    split; vm_compute; reflexivity.
Qed.

Lemma trimStart_length (s : string) :
  (String.length (trimStart s) ≤ String.length s)%nat.
Proof.
  induction s as [|c s IH]; [reflexivity|]. cbn [trimStart].
  destruct (is_whitespace c); cbn [String.length]; lia.
Qed.

Lemma trimStart_fixed (c : ascii) (s : string) :
  trimStart (String c s) = String c s → is_whitespace c = false.
Proof.
  cbn [trimStart]. destruct (is_whitespace c); [|reflexivity].
  intros H. pose proof (trimStart_length s) as Hl.
  rewrite H in Hl. cbn [String.length] in Hl. lia.
Qed.

Lemma trimEnd_last (s : string) (c : ascii) :
  is_whitespace c = false →
  trimEnd (s +:+ String c "") = s +:+ String c "".
Proof.
  intros Hc. induction s as [|a s IH].
  - change (trimEnd (String c "") = String c "").
    cbn [trimEnd]. now rewrite Hc.
  - rewrite append_cons. cbn [trimEnd]. rewrite IH.
    destruct s; reflexivity.
Qed.

Lemma strip_slash_last (s : string) : strip_slash (s +:+ "/") = s.
Proof.
  induction s as [|a s IH]; [reflexivity|].
  rewrite append_cons. cbn [strip_slash]. rewrite IH.
  destruct s; reflexivity.
Qed.

(** A string without surrounding whitespace and without a final slash is
    its own normal form, also after one slash has been appended. *)
Lemma normalize_slash (o : string) :
  o ≠ "" → trimStart o = o → trimEnd o = o → strip_slash o = o →
  normalize o = o ∧ normalize (o +:+ "/") = o.
Proof.
  intros Ho Hs He Hsl. unfold normalize, trim. split.
  - now rewrite Hs, He.
  - destruct o as [|c o]; [contradiction|].
    apply trimStart_fixed in Hs.
    rewrite append_cons. cbn [trimStart]. rewrite Hs.
    rewrite <- append_cons.
    rewrite (trimEnd_last (String c o) "/") by reflexivity.
    apply strip_slash_last.
Qed.

End CorsLemmas.

(** X17.  Whatever the environment adds, a request without an [Origin]
    is let through, and so is each of the nine listed origins, written
    with or without one final slash. *)
Theorem listed_origins_allowed (e : environment) :
  origin_check e None = Allow ∧ origin_check e (Some "") = Allow ∧
  ∀ o, o ∈ listed_origins →
       origin_check e (Some o) = Allow ∧
       origin_check e (Some (o +:+ "/")) = Allow.
Proof.
  split; [reflexivity|]. split; [reflexivity|].
  intros o Ho. destruct (listed_normal o Ho) as (Hne & Hn & Hs).
  assert (o ∈ cleanedAllowedOrigins e) as Hin.
  { unfold cleanedAllowedOrigins, allowedOrigins.
    rewrite <- Hn at 1. apply list_elem_of_fmap_2.
    apply elem_of_app. now left. }
  split; apply allowed_iff_member; try assumption.
  - now rewrite Hn.
  - destruct o; [contradiction|discriminate].
  - now rewrite Hs.
Qed.

Lemma listed_origins_allowed_witness :
  origin_check {| ALLOWED_ORIGIN := None; ALLOWED_ORIGINS := None |}
    (Some "https://collabup.live/") = Allow.
Proof.
  refine (proj2 (proj2 (proj2 (listed_origins_allowed _))
                   "https://collabup.live" _)).
  by_evaluation.
Defined.

Section CorsMembers.

(** What the cleaned list holds. *)
Lemma cleaned_member_iff (e : environment) (x : string) :
  x ∈ cleanedAllowedOrigins e ↔
  x ∈ listed_origins ∨
  (∃ a, ALLOWED_ORIGIN e = Some a ∧ a ≠ "" ∧ x = normalize (normalize a)) ∨
  (∃ l a, ALLOWED_ORIGINS e = Some l ∧ l ≠ "" ∧ a ∈ split_comma l ∧
          x = normalize (normalize a)).
Proof.
  unfold cleanedAllowedOrigins, allowedOrigins.
  rewrite !fmap_app, !elem_of_app. split.
  - intros [H|[H|H]].
    + left. apply list_elem_of_fmap in H as (y & Hy & Hin).
      destruct (listed_normal y Hin) as (_ & Hn & _). congruence.
    + right. left. destruct (ALLOWED_ORIGIN e) as [[|c a]|];
        try (now apply elem_of_nil in H).
      apply list_elem_of_fmap in H as (y & Hy & Hin).
      apply list_elem_of_singleton in Hin as ->. now eexists.
    + right. right. destruct (ALLOWED_ORIGINS e) as [[|c l]|];
        try (now apply elem_of_nil in H).
      apply list_elem_of_fmap in H as (y & Hy & Hin).
      apply list_elem_of_fmap in Hin as (a & -> & Hin).
      now exists (String c l), a.
  - intros [H|[(a & Ha & Hne & Heq)|(l & a & Hl & Hne & Hin & Heq)]].
    + left. destruct (listed_normal _ H) as (_ & Hn & _).
      rewrite <- Hn. now apply list_elem_of_fmap_2.
    + right. left. rewrite Ha. destruct a; [contradiction|].
      rewrite Heq. apply list_elem_of_fmap_2. apply list_elem_of_here.
    + right. right. rewrite Hl. destruct l; [contradiction|].
      rewrite Heq. now do 2 apply list_elem_of_fmap_2.
Qed.

End CorsMembers.

(** X18.  A non-empty origin is let through exactly when its normal form
    (surrounding whitespace and one final slash removed) is a listed
    origin, or is the twice-normalized [ALLOWED_ORIGIN], or the
    twice-normalized form of an entry of the comma-separated
    [ALLOWED_ORIGINS]; every other origin is blocked and logged as it
    came. *)
Theorem origin_allowed_iff (e : environment) (o : string) :
  o ≠ "" →
  (origin_check e (Some o) = Allow ↔
   normalize o ∈ listed_origins ∨
   (∃ a, ALLOWED_ORIGIN e = Some a ∧ a ≠ "" ∧
         normalize o = normalize (normalize a)) ∨
   (∃ l a, ALLOWED_ORIGINS e = Some l ∧ l ≠ "" ∧ a ∈ split_comma l ∧
           normalize o = normalize (normalize a))) ∧
  (origin_check e (Some o) ≠ Allow → origin_check e (Some o) = Block o).
Proof.
  intros Ho. split.
  - rewrite allowed_iff_member by assumption. apply cleaned_member_iff.
  - unfold origin_check. destruct o; [contradiction|]. cbv zeta.
    now destruct (existsb _ _).
Qed.

Lemma origin_allowed_iff_witness :
  origin_check {| ALLOWED_ORIGIN := None;
                  ALLOWED_ORIGINS := Some "https://a.example/, https://b.example" |}
    (Some "https://b.example") = Allow ∧
  origin_check {| ALLOWED_ORIGIN := None;
                  ALLOWED_ORIGINS := Some "https://a.example/, https://b.example" |}
    (Some "https://c.example") = Block "https://c.example".
Proof.
  split.
  - apply (proj1 (origin_allowed_iff _ "https://b.example"
                    ltac:(discriminate))).
    right. right. eexists _, " https://b.example".
    split; [reflexivity|]. split; [discriminate|].
    split; [by_evaluation|vm_compute; reflexivity].
  - apply (proj2 (origin_allowed_iff _ "https://c.example"
                    ltac:(discriminate))).
    vm_compute. discriminate.
Defined.

(** X19.  An origin without surrounding whitespace and without a final
    slash that is configured in [ALLOWED_ORIGIN], itself or followed by
    one slash, is let through, with and without a final slash. *)
Theorem configured_origin_allowed (e : environment) (o a : string) :
  o ≠ "" → trimStart o = o → trimEnd o = o → strip_slash o = o →
  ALLOWED_ORIGIN e = Some a → a = o ∨ a = o +:+ "/" →
  origin_check e (Some o) = Allow ∧
  origin_check e (Some (o +:+ "/")) = Allow.
Proof.
  intros Ho Hs He Hsl Ha Hform.
  destruct (normalize_slash o Ho Hs He Hsl) as [Hn Hns].
  assert (a ≠ "") as Hane
    by (destruct Hform as [->| ->]; [assumption|now destruct o]).
  assert (normalize (normalize a) = o) as Haa
    by (destruct Hform as [->| ->]; congruence).
  assert (o ∈ cleanedAllowedOrigins e) as Hin.
  { apply cleaned_member_iff. right. left. now exists a. }
  split; apply allowed_iff_member.
  - assumption.
  - now rewrite Hn.
  - now destruct o.
  - now rewrite Hns.
Qed.

Lemma configured_origin_allowed_witness :
  origin_check {| ALLOWED_ORIGIN := Some "https://staging.example/";
                  ALLOWED_ORIGINS := None |}
    (Some "https://staging.example") = Allow.
Proof.
  refine (proj1 (configured_origin_allowed
                   {| ALLOWED_ORIGIN := Some "https://staging.example/";
                      ALLOWED_ORIGINS := None |}
                   "https://staging.example" "https://staging.example/"
                   _ _ _ _ _ _));
    first [discriminate | reflexivity | now right].
Defined.
